(** * InlineKeyValueStringParser: a shallow embedding and its properties

    The embedded program is [src/inlinekeyvaluestringparser.js]: the class
    [InlineKeyValueStringParser] with its three static methods [parser],
    [_getValue] and [_unescapeText].

    - JavaScript strings are sequences of UTF-16 code units; they are
      modelled as [list N], so that [length], [substring], [trim] and the
      regular expressions count and inspect exactly what the engine does.
    - The regular expressions of the source are kept as syntax trees and
      run by a small backtracking matcher with the priorities of the
      engine (leftmost alternative first, greedy quantifiers).
    - [jsyaml.load] belongs to the third-party package js-yaml; it is a
      parameter of [parser], a function that either returns a value or
      throws. *)

From Stdlib Require Import String Ascii.
From Stdlib Require Import List Bool NArith ZArith QArith Lia.
Import ListNotations.

Set Implicit Arguments.
Set Warnings "-register-all".

(** ** Strings *)

Module JsString.

Definition jsstring : Type := list N.

(** The code units of an ASCII literal. *)
Definition js (s : string) : jsstring :=
  map N_of_ascii (list_ascii_of_string s).

(** The two quote characters and the other characters the parser names. *)
Definition DQUOTE : N := 34%N.
Definition SQUOTE : N := 39%N.
Definition BACKSLASH : N := 92%N.
Definition COLON : N := 58%N.

Definition jslength (s : jsstring) : Z := Z.of_nat (length s).

(** [a === b] on strings. *)
Fixpoint jseq (a b : jsstring) : bool :=
  match a, b with
  | [], [] => true
  | x :: a', y :: b' => N.eqb x y && jseq a' b'
  | _, _ => false
  end.

(** [s.startsWith(p)] *)
Fixpoint startsWith (s p : jsstring) {struct p} : bool :=
  match p with
  | [] => true
  | y :: p' =>
      match s with
      | [] => false
      | x :: s' => N.eqb x y && startsWith s' p'
      end
  end.

(** [s.endsWith(p)] *)
Definition endsWith (s p : jsstring) : bool :=
  startsWith (rev s) (rev p).

(** [s.indexOf(p)]: the least index at which [p] occurs, or -1. *)
Fixpoint indexOf_from (i : Z) (s p : jsstring) : Z :=
  if startsWith s p then i
  else match s with
       | [] => (-1)%Z
       | _ :: s' => indexOf_from (i + 1)%Z s' p
       end.

Definition indexOf (s p : jsstring) : Z := indexOf_from 0%Z s p.

(** [s.substring(a, b)]: both indices are clamped to [0, length] and
    swapped when out of order. *)
Definition clamp (len i : Z) : Z := Z.max 0 (Z.min i len).

Definition substring (s : jsstring) (a b : Z) : jsstring :=
  let len := jslength s in
  let a' := clamp len a in
  let b' := clamp len b in
  let lo := Z.min a' b' in
  let hi := Z.max a' b' in
  firstn (Z.to_nat (hi - lo)) (skipn (Z.to_nat lo) s).

(** White space and line terminators, as [String.prototype.trim] strips
    them: TAB, LF, VT, FF, CR, SP, NBSP, U+1680, U+2000..U+200A, U+2028,
    U+2029, U+202F, U+205F, U+3000 and U+FEFF. *)
Definition isWhiteSpace (c : N) : bool :=
  existsb (N.eqb c)
    [9; 10; 11; 12; 13; 32; 160; 5760; 8232; 8233; 8239; 8287; 12288; 65279]%N
  || (N.leb 8192 c && N.leb c 8202).

Fixpoint trimStart (s : jsstring) : jsstring :=
  match s with
  | [] => []
  | c :: s' => if isWhiteSpace c then trimStart s' else s
  end.

Definition trimEnd (s : jsstring) : jsstring := rev (trimStart (rev s)).

(** [s.trim()] *)
Definition trim (s : jsstring) : jsstring := trimEnd (trimStart s).

(** [s.toLowerCase()] on the letters A..Z.  Its only call site runs
    after [/^(true|false)$/i] has matched, where the text holds nothing
    but these letters; the Unicode case mappings of other letters are
    not modelled. *)
Definition lowerChar (c : N) : N :=
  if N.leb 65 c && N.leb c 90 then (c + 32)%N else c.

Definition toLowerCase (s : jsstring) : jsstring := map lowerChar s.

End JsString.

Import JsString.

(** ** Regular expressions *)

Module RegExp.

(** What one pattern character accepts: a literal, a literal under the
    [i] flag, [\d], or a bracket set such as [[+-]]. *)
Inductive atom : Type :=
| AChar (c : N)
| ACharI (c : N)
| ADigit
| ASet (cs : list N).

(** Case folding of the [i] flag (without the [u] flag): a character is
    compared through its upper-case form, and a character above U+007F is
    never folded onto an ASCII one, so an ASCII letter of the pattern
    accepts its two ASCII cases and nothing else.  The patterns of this
    program use the flag with ASCII letters only. *)
Definition canonicalize (c : N) : N :=
  if N.leb 97 c && N.leb c 122 then (c - 32)%N else c.

Definition isDigit (c : N) : bool := N.leb 48 c && N.leb c 57.

Definition atom_match (a : atom) (c : N) : bool :=
  match a with
  | AChar x => N.eqb c x
  | ACharI x => N.eqb (canonicalize c) (canonicalize x)
  | ADigit => isDigit c
  | ASet cs => existsb (N.eqb c) cs
  end.

Inductive regex : Type :=
| Eps
| Bol                       (* ^ *)
| Eol                       (* $ *)
| Atom (a : atom)
| Seq (r1 r2 : regex)
| Alt (r1 r2 : regex)       (* r1|r2 *)
| Opt (r : regex)           (* r? *)
| Plus (a : atom).          (* a+ *)

(** [r{n}] *)
Fixpoint Rep (n : nat) (r : regex) : regex :=
  match n with
  | O => Eps
  | S n' => Seq r (Rep n' r)
  end.

(** A run of literal characters, with or without the [i] flag. *)
Fixpoint Lit (s : jsstring) : regex :=
  match s with
  | [] => Eps
  | c :: s' => Seq (Atom (AChar c)) (Lit s')
  end.

Fixpoint LitI (s : jsstring) : regex :=
  match s with
  | [] => Eps
  | c :: s' => Seq (Atom (ACharI c)) (LitI s')
  end.

Section Matcher.

Variable A : Type.

(** [run r bol s k] matches [r] at the head of [s] and hands what is left
    to the continuation [k]; when [k] refuses, the matcher backtracks.
    [bol] tells whether the head of [s] is index 0 of the subject. *)
Fixpoint run (r : regex) (bol : bool) (s : jsstring)
    (k : bool -> jsstring -> option A) : option A :=
  match r with
  | Eps => k bol s
  | Bol => if bol then k bol s else None
  | Eol => match s with [] => k bol s | _ :: _ => None end
  | Atom a =>
      match s with
      | c :: s' => if atom_match a c then k false s' else None
      | [] => None
      end
  | Seq r1 r2 => run r1 bol s (fun bol' s' => run r2 bol' s' k)
  | Alt r1 r2 =>
      match run r1 bol s k with
      | Some x => Some x
      | None => run r2 bol s k
      end
  | Opt r1 =>
      match run r1 bol s k with
      | Some x => Some x
      | None => k bol s
      end
  | Plus a =>
      (fix more (s : jsstring) : option A :=
         match s with
         | c :: s' =>
             if atom_match a c then
               match more s' with
               | Some x => Some x
               | None => k false s'
               end
             else None
         | [] => None
         end) s
  end.

End Matcher.

(** The match of [r] that starts at the head of [s]: what follows it. *)
Definition match_here (r : regex) (bol : bool) (s : jsstring)
  : option jsstring :=
  run r bol s (fun _ rest => Some rest).

(** [r.test(s)] for a pattern without the [g] and [y] flags: is there an
    index at which [r] matches? *)
Fixpoint test_from (r : regex) (bol : bool) (s : jsstring) : bool :=
  match match_here r bol s with
  | Some _ => true
  | None =>
      match s with
      | [] => false
      | _ :: s' => test_from r false s'
      end
  end.

Definition test (r : regex) (s : jsstring) : bool := test_from r true s.

(** [s.replace(r, f)] for a pattern with the [g] flag and a replacer
    function [f] of the matched text.  The subject is scanned once from
    the left; the text of a match is replaced by [f] of it and the scan
    goes on after the match ([skip] counts the characters of the match
    still to be passed over); an empty match moves on by one character. *)
Fixpoint replace_from (r : regex) (f : jsstring -> jsstring)
    (bol : bool) (skip : nat) (s : jsstring) : jsstring :=
  match skip with
  | S skip' =>
      match s with
      | [] => []
      | _ :: s' => replace_from r f false skip' s'
      end
  | O =>
      match match_here r bol s with
      | Some rest =>
          let n := (length s - length rest)%nat in
          f (firstn n s) ++
          match s with
          | [] => []
          | c :: s' =>
              match n with
              | O => c :: replace_from r f false O s'
              | S n' => replace_from r f false n' s'
              end
          end
      | None =>
          match s with
          | [] => []
          | c :: s' => c :: replace_from r f false O s'
          end
      end
  end.

Definition replace (s : jsstring) (r : regex) (f : jsstring -> jsstring)
  : jsstring :=
  replace_from r f true O s.

End RegExp.

Import RegExp.

(** ** Values and completions *)

(** The values the parser returns or receives from js-yaml.  A number is
    kept as the exact rational its decimal literal denotes (the engine
    rounds it to binary64, which nothing below observes); a [Date] is
    kept as the text handed to its constructor. *)
Inductive JsValue : Type :=
| VUndefined
| VNull
| VBoolean (b : bool)
| VNumber (q : Q)
| VString (s : jsstring)
| VDate (text : jsstring)
| VArray (items : list JsValue)
| VObject (props : list (jsstring * JsValue)).

(** The object literal [{}]. *)
Definition emptyObject : JsValue := VObject [].

(** [o[k]]: the value of the own property [k], [undefined] without it. *)
Fixpoint lookup (props : list (jsstring * JsValue)) (k : jsstring)
  : option JsValue :=
  match props with
  | [] => None
  | (k', v) :: rest => if jseq k' k then Some v else lookup rest k
  end.

Definition getProp (o : JsValue) (k : jsstring) : JsValue :=
  match o with
  | VObject props =>
      match lookup props k with
      | Some v => v
      | None => VUndefined
      end
  | _ => VUndefined
  end.

(** [Object.keys(o)] *)
Definition keys (o : JsValue) : list jsstring :=
  match o with
  | VObject props => map fst props
  | _ => []
  end.

(** The outcome of a call: a returned value or a thrown one. *)
Inductive completion (A : Type) : Type :=
| Normal (a : A)
| Throw (e : JsValue).

Arguments Normal {A} a.
Arguments Throw {A} e.

(** [try { c } catch (err) { h err }] *)
Definition try_catch {A : Type} (c : completion A)
    (h : JsValue -> completion A) : completion A :=
  match c with
  | Normal a => Normal a
  | Throw e => h e
  end.

(** The argument of [parser]: the interface takes an optional string. *)
Inductive Arg : Type :=
| ArgUndefined
| ArgNull
| ArgString (s : jsstring).

(** ** The parser *)

Module InlineKeyValueStringParser.

(** [Number(text)] on the texts that [/^[+-]?\d+(\.\d+)?$/] admits: an
    optional sign, an integer part and an optional fraction. *)
Definition digitValue (c : N) : Z := Z.of_N (c - 48).

Definition digitsValue (ds : jsstring) : Z :=
  fold_left (fun acc d => (10 * acc + digitValue d)%Z) ds 0%Z.

Fixpoint takeDigits (s : jsstring) : jsstring * jsstring :=
  match s with
  | c :: s' =>
      if isDigit c then let (ds, rest) := takeDigits s' in (c :: ds, rest)
      else ([], s)
  | [] => ([], [])
  end.

Definition Number (text : jsstring) : Q :=
  let (negative, body) :=
    match text with
    | 45%N :: r => (true, r)
    | 43%N :: r => (false, r)
    | _ => (false, text)
    end in
  let (ip, rest) := takeDigits body in
  let fp := match rest with 46%N :: f => fst (takeDigits f) | _ => [] end in
  let q := Qred (Qmake (digitsValue (ip ++ fp))
                       (Z.to_pos (10 ^ Z.of_nat (length fp)))) in
  if negative then Qopp q else q.

(** The patterns of the source, as written there. *)

(* /''/g *)
Definition reTwoQuotes : regex := Lit [SQUOTE; SQUOTE].

(* /^[+-]?\d+(\.\d+)?$/ *)
Definition reNumber : regex :=
  Seq Bol
   (Seq (Opt (Atom (ASet [43; 45]%N)))
     (Seq (Plus ADigit)
       (Seq (Opt (Seq (Atom (AChar 46)) (Plus ADigit)))
         Eol))).

(* /^(true|false)$/i *)
Definition reBoolean : regex :=
  Seq Bol (Seq (Alt (LitI (js "true")) (LitI (js "false"))) Eol).

(* /^\d{4}-\d{2}-\d{2}$/ *)
Definition reDate : regex :=
  Seq Bol
   (Seq (Rep 4 (Atom ADigit))
     (Seq (Atom (AChar 45))
       (Seq (Rep 2 (Atom ADigit))
         (Seq (Atom (AChar 45))
           (Seq (Rep 2 (Atom ADigit))
             Eol))))).

(* /(\\n|\\t|\\\\)/g *)
Definition reEscape : regex :=
  Alt (Lit [BACKSLASH; 110%N])
   (Alt (Lit [BACKSLASH; 116%N])
        (Lit [BACKSLASH; BACKSLASH])).

(** [reverseTextEntityMap] *)
Definition reverseTextEntityMap : list (jsstring * jsstring) :=
  [ ([BACKSLASH; 110%N], [10%N]);
    ([BACKSLASH; 116%N], [9%N]);
    ([BACKSLASH; BACKSLASH], [BACKSLASH]) ].

Fixpoint entity (m : list (jsstring * jsstring)) (s : jsstring)
  : option jsstring :=
  match m with
  | [] => None
  | (k, v) :: rest => if jseq k s then Some v else entity rest s
  end.

(** The replacer of [_unescapeText], [(s) => reverseTextEntityMap[s]].
    A replacer that returns [undefined] makes [replace] insert the text
    "undefined". *)
Definition unescapeReplacer (s : jsstring) : jsstring :=
  match entity reverseTextEntityMap s with
  | Some v => v
  | None => js "undefined"
  end.

(** [_unescapeText(text)] *)
Definition _unescapeText (text : jsstring) : jsstring :=
  replace text reEscape unescapeReplacer.

(** The guards of the two quoted-string branches of [_getValue]. *)
Definition isDoubleQuoted (text : jsstring) : bool :=
  startsWith text [DQUOTE] && (2 <? jslength text)%Z
  && endsWith text [DQUOTE].

Definition isSingleQuoted (text : jsstring) : bool :=
  startsWith text [SQUOTE] && (2 <? jslength text)%Z
  && endsWith text [SQUOTE].

(** [_getValue(text)] *)
Definition _getValue (text : jsstring) : JsValue :=
  if isDoubleQuoted text then
    let text := substring text 1 (jslength text - 1) in
    VString (_unescapeText text)
  else if isSingleQuoted text then
    let text := substring text 1 (jslength text - 1) in
    VString (replace text reTwoQuotes (fun _ => [SQUOTE]))
  else if test reNumber text then
    VNumber (Number text)
  else if test reBoolean text then
    VBoolean (jseq (toLowerCase text) (js "true"))
  else if test reDate text then
    VDate text
  else if jseq text (js "null") then
    VNull
  else
    VString text.

Section Parser.

(** [jsyaml.load] *)
Variable jsyaml_load : jsstring -> completion JsValue.

(** [parser(keyValueString)] *)
Definition parser (keyValueString : Arg) : completion JsValue :=
  match keyValueString with
  | ArgUndefined | ArgNull => Normal emptyObject
  | ArgString s =>
      let keyValueString := trim s in
      if jseq keyValueString [] then Normal emptyObject
      else if startsWith keyValueString [DQUOTE]
              || startsWith keyValueString [SQUOTE]
              || (indexOf keyValueString [COLON] =? -1)%Z then
        let value := _getValue keyValueString in
        Normal (VObject [(js "_", value)])
      else
        try_catch (jsyaml_load (js "{" ++ keyValueString ++ js "}"))
                  (fun err => Normal emptyObject)
  end.

End Parser.

End InlineKeyValueStringParser.

Import InlineKeyValueStringParser.

(** ** The specification's reading of the coercion rules

    These definitions follow the words of the specification; the
    theorems below compare them with the code. *)

Module Spec.

(** One pass from the left: backslash-n, backslash-t and
    backslash-backslash become newline, tab and backslash; what a
    replacement produced is not looked at again; any other character,
    a backslash before anything else included, is copied. *)
Fixpoint unescape (s : jsstring) : jsstring :=
  match s with
  | [] => []
  | c :: s' =>
      if N.eqb c BACKSLASH then
        match s' with
        | [] => [c]
        | d :: s'' =>
            if N.eqb d 110 then 10%N :: unescape s''
            else if N.eqb d 116 then 9%N :: unescape s''
            else if N.eqb d BACKSLASH then BACKSLASH :: unescape s''
            else c :: unescape s'
        end
      else c :: unescape s'
  end.

(** Every two consecutive single-quotes become one, from the left. *)
Fixpoint collapseQuotes (s : jsstring) : jsstring :=
  match s with
  | [] => []
  | c :: s' =>
      if N.eqb c SQUOTE then
        match s' with
        | [] => [c]
        | d :: s'' =>
            if N.eqb d SQUOTE then SQUOTE :: collapseQuotes s''
            else c :: collapseQuotes s'
        end
      else c :: collapseQuotes s'
  end.

(** Four digits, a hyphen, two digits, a hyphen, two digits. *)
Definition isDateText (t : jsstring) : bool :=
  match t with
  | [y1; y2; y3; y4; h1; m1; m2; h2; d1; d2] =>
      forallb isDigit [y1; y2; y3; y4] && N.eqb h1 45
      && forallb isDigit [m1; m2] && N.eqb h2 45
      && forallb isDigit [d1; d2]
  | _ => false
  end.

End Spec.

(** ** The number tokens, in words *)

(** An optional sign, one digit or more, and then nothing or a point
    and one digit or more. *)
Definition NumberText (text : jsstring) : Prop :=
  exists sign ip frac : jsstring,
    (sign = [] \/ sign = [43%N] \/ sign = [45%N]) /\
    ip <> [] /\ forallb isDigit ip = true /\
    (frac = [] \/
     exists fp, frac = 46%N :: fp /\ fp <> [] /\ forallb isDigit fp = true) /\
    text = sign ++ ip ++ frac.

(** ** Loaders to run the parser with *)

(** A loader that rejects every document, and one that reads nothing
    but [{a: b}]. *)
Definition rejectingLoader (doc : jsstring) : completion JsValue :=
  Throw (VString (js "YAMLException")).

Definition sampleLoader (doc : jsstring) : completion JsValue :=
  if jseq doc (js "{a: b}")
  then Normal (VObject [(js "a", VString (js "b"))])
  else Throw (VString (js "YAMLException")).

(** * Properties *)

Unset Implicit Arguments.

(** ** Strings *)

Lemma jseq_true_iff (a b : jsstring) : jseq a b = true <-> a = b.
Proof.
  revert b; induction a as [|x a IH]; intros [|y b]; simpl;
    try (split; [discriminate | intros H; inversion H]); try tauto.
  rewrite andb_true_iff, N.eqb_eq, IH.
  split; [intros [-> ->]; reflexivity | intros H; inversion H; auto].
Qed.

Lemma jseq_nil (s : jsstring) : jseq s [] = true <-> s = [].
Proof. apply jseq_true_iff. Qed.

Lemma startsWith_char (s : jsstring) (c : N) :
  startsWith s [c] = true <-> exists r, s = c :: r.
Proof.
  destruct s as [|x s]; simpl.
  - split; [discriminate | intros [r H]; discriminate].
  - rewrite andb_true_r, N.eqb_eq.
    split; [intros ->; eauto | intros [r H]; inversion H; reflexivity].
Qed.

Lemma startsWith_char_nonempty (s : jsstring) (c : N) :
  startsWith s [c] = true -> s <> [].
Proof. intros H%startsWith_char. destruct H as [r ->]. discriminate. Qed.

Lemma endsWith_char (s : jsstring) (c : N) :
  endsWith s [c] = true <-> exists r, s = r ++ [c].
Proof.
  unfold endsWith; simpl rev. rewrite startsWith_char. split.
  - intros [r H]. exists (rev r).
    rewrite <- (rev_involutive s), H. reflexivity.
  - intros [r ->]. exists (rev r). apply rev_unit.
Qed.

(** [indexOf] answers -1 exactly when the character does not occur. *)
Lemma indexOf_from_char (c : N) (s : jsstring) (i : Z) :
  (0 <= i)%Z ->
  (indexOf_from i s [c] = -1)%Z <-> ~ In c s.
Proof.
  revert i; induction s as [|x s IH]; intros i Hi; simpl.
  - tauto.
  - rewrite andb_true_r. destruct (N.eqb_spec x c) as [->|Hne].
    + split; [lia | intros H; exfalso; apply H; auto].
    + rewrite IH by lia. split; intros H; [intros [E|E]; auto | auto].
Qed.

Lemma indexOf_char (c : N) (s : jsstring) :
  (indexOf s [c] =? -1)%Z = true <-> ~ In c s.
Proof. rewrite Z.eqb_eq. apply indexOf_from_char. lia. Qed.

(** *** [trim] *)

Lemma trimStart_idem (s : jsstring) : trimStart (trimStart s) = trimStart s.
Proof.
  induction s as [|c s IH]; simpl; auto.
  destruct (isWhiteSpace c) eqn:E; auto. simpl. rewrite E. reflexivity.
Qed.

Lemma trimStart_app_last (s : jsstring) (c : N) :
  trimStart (s ++ [c]) =
  match trimStart s with
  | [] => if isWhiteSpace c then [] else [c]
  | t => t ++ [c]
  end.
Proof.
  induction s as [|x s IH]; simpl; auto.
  destruct (isWhiteSpace x); auto.
Qed.

Lemma trimEnd_cons (c : N) (s : jsstring) :
  trimEnd (c :: s) =
  match trimEnd s with
  | [] => if isWhiteSpace c then [] else [c]
  | t => c :: t
  end.
Proof.
  unfold trimEnd. simpl rev. rewrite trimStart_app_last.
  destruct (trimStart (rev s)) as [|y t] eqn:E.
  - simpl. destruct (isWhiteSpace c); reflexivity.
  - rewrite rev_unit.
    destruct (rev (y :: t)) eqn:E'; [|reflexivity].
    apply (f_equal (@length N)) in E'. rewrite length_rev in E'.
    discriminate.
Qed.

Lemma trimEnd_idem (s : jsstring) : trimEnd (trimEnd s) = trimEnd s.
Proof.
  unfold trimEnd. rewrite rev_involutive, trimStart_idem. reflexivity.
Qed.

(** Trimming the end leaves a trimmed start alone. *)
Lemma trimStart_trimEnd (s : jsstring) :
  trimStart s = s -> trimStart (trimEnd s) = trimEnd s.
Proof.
  destruct s as [|c s]; [reflexivity|].
  simpl. destruct (isWhiteSpace c) eqn:E.
  - intros H. exfalso.
    assert (L : (length (trimStart s) <= length s)%nat).
    { clear. induction s as [|x s IH]; simpl; auto.
      destruct (isWhiteSpace x); simpl; lia. }
    rewrite H in L. simpl in L. lia.
  - intros _. rewrite trimEnd_cons.
    destruct (trimEnd s); rewrite ?E; simpl; rewrite E; reflexivity.
Qed.

Lemma trim_idem (s : jsstring) : trim (trim s) = trim s.
Proof.
  unfold trim.
  rewrite (trimStart_trimEnd _ (trimStart_idem s)).
  apply trimEnd_idem.
Qed.

Lemma trimStart_blank (s : jsstring) :
  forallb isWhiteSpace s = true -> trimStart s = [].
Proof.
  induction s as [|c s IH]; simpl; auto.
  intros [-> H]%andb_true_iff. auto.
Qed.

Lemma trim_blank (s : jsstring) :
  forallb isWhiteSpace s = true -> trim s = [].
Proof. intros H. unfold trim. rewrite trimStart_blank; auto. Qed.

(** A character that is not white space survives trimming. *)
Lemma trimStart_In (c : N) (s : jsstring) :
  isWhiteSpace c = false -> In c s -> In c (trimStart s).
Proof.
  intros Hc. induction s as [|x s IH]; simpl; auto.
  destruct (isWhiteSpace x) eqn:E; simpl; auto.
  intros [->|H]; auto. congruence.
Qed.

Lemma trim_In (c : N) (s : jsstring) :
  isWhiteSpace c = false -> In c s -> In c (trim s).
Proof.
  intros Hc H. unfold trim, trimEnd.
  apply in_rev. rewrite rev_involutive.
  apply trimStart_In; auto. apply -> in_rev.
  apply trimStart_In; auto.
Qed.

(** *** Quoted tokens *)

(** [text.substring(1, text.length - 1)] drops the first and the last
    character. *)
Lemma substring_inner (a b : N) (inner : jsstring) :
  let text := a :: inner ++ [b] in
  substring text 1 (jslength text - 1) = inner.
Proof.
  intros text.
  assert (A : forall len, (2 <= len)%Z ->
            Z.min (clamp len 1) (clamp len (len - 1)) = 1%Z /\
            Z.max (clamp len 1) (clamp len (len - 1)) = (len - 1)%Z)
    by (intros len H; unfold clamp; lia).
  assert (L : jslength text = (Z.of_nat (length inner) + 2)%Z).
  { unfold jslength, text. simpl length. rewrite length_app. simpl length.
    lia. }
  unfold substring. destruct (A (jslength text)) as [-> ->]; [lia|].
  rewrite L.
  replace (Z.of_nat (length inner) + 2 - 1 - 1)%Z
    with (Z.of_nat (length inner)) by lia.
  rewrite Nat2Z.id. change (Z.to_nat 1) with 1%nat. unfold text.
  simpl skipn.
  rewrite firstn_app, firstn_all, Nat.sub_diag. simpl. apply app_nil_r.
Qed.

(** A text longer than two characters that starts and ends with the
    quote [q] is [q], an interior that is not empty, and [q]. *)
Lemma quoted_shape (q : N) (text : jsstring) :
  startsWith text [q] && (2 <? jslength text)%Z && endsWith text [q] = true ->
  exists inner, inner <> [] /\ text = q :: inner ++ [q].
Proof.
  rewrite !andb_true_iff, Z.ltb_lt, startsWith_char, endsWith_char.
  intros [[[r ->] Hlen] [r' E]].
  destruct r' as [|x r'].
  - simpl in E. inversion E; subst. unfold jslength in Hlen.
    simpl in Hlen. lia.
  - simpl in E. inversion E; subst. exists r'. split; auto.
    intros ->. unfold jslength in Hlen. simpl in Hlen. lia.
Qed.

Lemma quoted_guard (q : N) (inner : jsstring) :
  inner <> [] ->
  startsWith (q :: inner ++ [q]) [q]
  && (2 <? jslength (q :: inner ++ [q]))%Z
  && endsWith (q :: inner ++ [q]) [q] = true.
Proof.
  intros Hne. rewrite !andb_true_iff, Z.ltb_lt. repeat split.
  - apply startsWith_char; eauto.
  - unfold jslength. simpl length. rewrite length_app. simpl length.
    destruct inner; [congruence | simpl length; lia].
  - apply endsWith_char. exists (q :: inner). reflexivity.
Qed.

(** ** Regular expressions *)

(** A pattern that begins with [^] matches at index 0 or nowhere. *)
Lemma test_anchored (r : regex) (s : jsstring) :
  test (Seq Bol r) s =
  match match_here r true s with Some _ => true | None => false end.
Proof.
  assert (L : forall t, test_from (Seq Bol r) false t = false).
  { induction t as [|c t IH]; simpl; auto. }
  unfold test. destruct s as [|c s]; simpl;
    unfold match_here; simpl;
    match goal with |- context [run r true ?x ?k] =>
      destruct (run r true x k) end; auto.
Qed.

(** Passing over the rest of a match. *)
Lemma replace_from_skip (r : regex) (f : jsstring -> jsstring)
    (p rest : jsstring) :
  replace_from r f false (length p) (p ++ rest) = replace_from r f false O rest.
Proof. induction p as [|c p IH]; simpl; auto. Qed.

(** A match that is not empty is replaced and the scan resumes after it. *)
Lemma replace_from_match (r : regex) (f : jsstring -> jsstring)
    (bol : bool) (c : N) (p rest : jsstring) :
  match_here r bol (c :: p ++ rest) = Some rest ->
  replace_from r f bol O (c :: p ++ rest) =
  f (c :: p) ++ replace_from r f false O rest.
Proof.
  intros H. cbn [replace_from]. rewrite H.
  assert (E : (length (c :: p ++ rest) - length rest)%nat = S (length p)).
  { change (length (c :: p ++ rest)) with (S (length (p ++ rest))).
    rewrite length_app. lia. }
  rewrite E.
  change (firstn (S (length p)) (c :: p ++ rest))
    with (c :: firstn (length p) (p ++ rest)).
  rewrite firstn_app, firstn_all, Nat.sub_diag. simpl firstn.
  rewrite app_nil_r, replace_from_skip. reflexivity.
Qed.

Lemma replace_from_match2 (r : regex) (f : jsstring -> jsstring)
    (bol : bool) (c d : N) (rest : jsstring) :
  match_here r bol (c :: d :: rest) = Some rest ->
  replace_from r f bol O (c :: d :: rest) =
  f [c; d] ++ replace_from r f false O rest.
Proof. apply (replace_from_match r f bol c [d] rest). Qed.

(** Where nothing matches, the character is copied. *)
Lemma replace_from_miss (r : regex) (f : jsstring -> jsstring)
    (bol : bool) (c : N) (s : jsstring) :
  match_here r bol (c :: s) = None ->
  replace_from r f bol O (c :: s) = c :: replace_from r f false O s.
Proof. intros H. cbn [replace_from]. rewrite H. reflexivity. Qed.

Lemma replace_from_nil (r : regex) (f : jsstring -> jsstring) (bol : bool) :
  match_here r bol [] = None -> replace_from r f bol O [] = [].
Proof. intros H. cbn [replace_from]. rewrite H. reflexivity. Qed.

(** ** The two replacements of [_getValue] against their specification *)

Lemma reEscape_here (bol : bool) (s : jsstring) :
  match_here reEscape bol s =
  match s with
  | c :: d :: rest =>
      if N.eqb c BACKSLASH
         && (N.eqb d 110 || N.eqb d 116 || N.eqb d BACKSLASH)
      then Some rest else None
  | _ => None
  end.
Proof.
  unfold match_here, reEscape. destruct s as [|c [|d rest]]; simpl.
  - reflexivity.
  - destruct (N.eqb c BACKSLASH); reflexivity.
  - destruct (N.eqb c BACKSLASH); simpl; [|reflexivity].
    destruct (N.eqb d 110); simpl; [reflexivity|].
    destruct (N.eqb d 116); simpl; [reflexivity|].
    destruct (N.eqb d BACKSLASH); reflexivity.
Qed.

Lemma unescape_cons2 (c d : N) (rest : jsstring) :
  Spec.unescape (c :: d :: rest) =
  if N.eqb c BACKSLASH then
    if N.eqb d 110 then 10%N :: Spec.unescape rest
    else if N.eqb d 116 then 9%N :: Spec.unescape rest
    else if N.eqb d BACKSLASH then BACKSLASH :: Spec.unescape rest
    else c :: Spec.unescape (d :: rest)
  else c :: Spec.unescape (d :: rest).
Proof. reflexivity. Qed.

Lemma unescape_scan (n : nat) :
  forall (s : jsstring) (bol : bool),
    (length s <= n)%nat ->
    replace_from reEscape unescapeReplacer bol O s = Spec.unescape s.
Proof.
  induction n as [|n IH]; intros s bol Hlen.
  - destruct s; [|simpl in Hlen; lia].
    apply replace_from_nil, reEscape_here.
  - destruct s as [|c [|d rest]].
    + apply replace_from_nil, reEscape_here.
    + rewrite replace_from_miss by (rewrite reEscape_here; reflexivity).
      rewrite replace_from_nil by apply reEscape_here.
      simpl. destruct (N.eqb c BACKSLASH); reflexivity.
    + simpl in Hlen. rewrite unescape_cons2.
      destruct (N.eqb_spec c BACKSLASH) as [->|Hc].
      * destruct (N.eqb_spec d 110) as [->|H1];
          [|destruct (N.eqb_spec d 116) as [->|H2];
            [|destruct (N.eqb_spec d BACKSLASH) as [->|H3]]].
        -- rewrite replace_from_match2
             by (rewrite reEscape_here; reflexivity).
           rewrite IH by lia. reflexivity.
        -- rewrite replace_from_match2
             by (rewrite reEscape_here; reflexivity).
           rewrite IH by lia. reflexivity.
        -- rewrite replace_from_match2
             by (rewrite reEscape_here; reflexivity).
           rewrite IH by lia. reflexivity.
        -- rewrite replace_from_miss.
           ++ rewrite IH by (simpl; lia). reflexivity.
           ++ rewrite reEscape_here. rewrite N.eqb_refl.
              apply N.eqb_neq in H1, H2, H3. rewrite H1, H2, H3.
              reflexivity.
      * rewrite replace_from_miss.
        -- rewrite IH by (simpl; lia). reflexivity.
        -- rewrite reEscape_here. apply N.eqb_neq in Hc. rewrite Hc.
           reflexivity.
Qed.

(** [_unescapeText] is the single pass of the specification. *)
Lemma _unescapeText_spec (s : jsstring) : _unescapeText s = Spec.unescape s.
Proof.
  unfold _unescapeText, replace.
  apply (unescape_scan (length s)). lia.
Qed.

Lemma reTwoQuotes_here (bol : bool) (s : jsstring) :
  match_here reTwoQuotes bol s =
  match s with
  | c :: d :: rest =>
      if N.eqb c SQUOTE && N.eqb d SQUOTE then Some rest else None
  | _ => None
  end.
Proof.
  unfold match_here, reTwoQuotes. destruct s as [|c [|d rest]]; simpl.
  - reflexivity.
  - destruct (N.eqb c SQUOTE); reflexivity.
  - destruct (N.eqb c SQUOTE); simpl; [|reflexivity].
    destruct (N.eqb d SQUOTE); reflexivity.
Qed.

Lemma collapseQuotes_cons2 (c d : N) (rest : jsstring) :
  Spec.collapseQuotes (c :: d :: rest) =
  if N.eqb c SQUOTE then
    if N.eqb d SQUOTE then SQUOTE :: Spec.collapseQuotes rest
    else c :: Spec.collapseQuotes (d :: rest)
  else c :: Spec.collapseQuotes (d :: rest).
Proof. reflexivity. Qed.

Lemma collapse_scan (n : nat) :
  forall (s : jsstring) (bol : bool),
    (length s <= n)%nat ->
    replace_from reTwoQuotes (fun _ => [SQUOTE]) bol O s
    = Spec.collapseQuotes s.
Proof.
  induction n as [|n IH]; intros s bol Hlen.
  - destruct s; [|simpl in Hlen; lia].
    apply replace_from_nil, reTwoQuotes_here.
  - destruct s as [|c [|d rest]].
    + apply replace_from_nil, reTwoQuotes_here.
    + rewrite replace_from_miss by (rewrite reTwoQuotes_here; reflexivity).
      rewrite replace_from_nil by apply reTwoQuotes_here.
      simpl. destruct (N.eqb c SQUOTE); reflexivity.
    + simpl in Hlen. rewrite collapseQuotes_cons2.
      destruct (N.eqb_spec c SQUOTE) as [->|Hc];
        [destruct (N.eqb_spec d SQUOTE) as [->|Hd]|].
      * rewrite replace_from_match2
          by (rewrite reTwoQuotes_here; reflexivity).
        rewrite IH by lia. reflexivity.
      * rewrite replace_from_miss.
        -- rewrite IH by (simpl; lia). reflexivity.
        -- rewrite reTwoQuotes_here, N.eqb_refl.
           apply N.eqb_neq in Hd. rewrite Hd. reflexivity.
      * rewrite replace_from_miss.
        -- rewrite IH by (simpl; lia). reflexivity.
        -- rewrite reTwoQuotes_here. apply N.eqb_neq in Hc. rewrite Hc.
           reflexivity.
Qed.

Lemma replace_two_quotes_spec (s : jsstring) :
  replace s reTwoQuotes (fun _ => [SQUOTE]) = Spec.collapseQuotes s.
Proof. unfold replace. apply (collapse_scan (length s)). lia. Qed.

(** ** The date pattern *)

(** [/^\d{4}-\d{2}-\d{2}$/] accepts the texts of the specification's
    date shape and no other. *)
Lemma reDate_spec (text : jsstring) :
  test reDate text = Spec.isDateText text.
Proof.
  unfold reDate. rewrite test_anchored. unfold match_here, Spec.isDateText.
  do 11 (destruct text as [|? text]; simpl; try reflexivity;
         repeat match goal with
                | |- context [isDigit ?c] =>
                    destruct (isDigit c); simpl; try reflexivity
                | |- context [N.eqb ?c 45] =>
                    destruct (N.eqb c 45); simpl; try reflexivity
                end).
Qed.

(** ** The shape detector of [parser] *)

Section Shape.

Variable jsyaml_load : jsstring -> completion JsValue.

(** The default-key shape: the trimmed text starts with a quote or holds
    no colon. *)
Lemma parser_default_key (s : jsstring) :
  trim s <> [] ->
  startsWith (trim s) [DQUOTE] = true \/
  startsWith (trim s) [SQUOTE] = true \/
  ~ In COLON (trim s) ->
  parser jsyaml_load (ArgString s)
  = Normal (VObject [(js "_", _getValue (trim s))]).
Proof.
  intros Hne H. unfold parser.
  destruct (jseq (trim s) []) eqn:E.
  - apply jseq_nil in E. contradiction.
  - destruct H as [H | [H | H]].
    + rewrite H. reflexivity.
    + rewrite H, orb_true_r. reflexivity.
    + apply indexOf_char in H. rewrite H, !orb_true_r. reflexivity.
Qed.

(** The key-value-list shape: the text goes to js-yaml between braces,
    and an exception of the loader is swallowed. *)
Lemma parser_key_value_list (s : jsstring) :
  startsWith (trim s) [DQUOTE] = false ->
  startsWith (trim s) [SQUOTE] = false ->
  In COLON (trim s) ->
  parser jsyaml_load (ArgString s)
  = try_catch (jsyaml_load (js "{" ++ trim s ++ js "}"))
              (fun _ => Normal emptyObject).
Proof.
  intros Hd Hs Hc. unfold parser.
  destruct (jseq (trim s) []) eqn:E.
  - apply jseq_nil in E. rewrite E in Hc. destruct Hc.
  - rewrite Hd, Hs. simpl orb.
    destruct (indexOf (trim s) [COLON] =? -1)%Z eqn:E'; [|reflexivity].
    apply indexOf_char in E'. contradiction.
Qed.

Lemma parser_empty (s : jsstring) :
  trim s = [] -> parser jsyaml_load (ArgString s) = Normal emptyObject.
Proof. intros H. unfold parser. rewrite H. reflexivity. Qed.

End Shape.

(** ** What the tests of the repository expect of the default-key shape *)

Example test_default_single_quotes :
  parser rejectingLoader (ArgString (js "'foo '' bar'"))
  = Normal (VObject [(js "_", VString (js "foo ' bar"))]).
Proof. reflexivity. Qed.

Example test_default_double_quotes_escapes :
  parser rejectingLoader
    (ArgString ([DQUOTE] ++ js "foo \n \t \\ bar" ++ [DQUOTE]))
  = Normal (VObject
      [(js "_", VString (js "foo " ++ [10%N] ++ js " " ++ [9%N] ++ js " \ bar"))]).
Proof. reflexivity. Qed.

Example test_default_single_quotes_backslash :
  parser rejectingLoader (ArgString (js "'foo \n \t \\ bar'"))
  = Normal (VObject [(js "_", VString (js "foo \n \t \\ bar"))]).
Proof. reflexivity. Qed.

Example test_default_special_characters :
  parser rejectingLoader
    (ArgString (js "'a [] b {} c = d : e - f | + g > h ! i'"))
  = Normal (VObject
      [(js "_", VString (js "a [] b {} c = d : e - f | + g > h ! i"))]).
Proof. reflexivity. Qed.

Example test_default_numbers :
  parser rejectingLoader (ArgString (js "123"))
  = Normal (VObject [(js "_", VNumber (123 # 1))]) /\
  parser rejectingLoader (ArgString (js "-123"))
  = Normal (VObject [(js "_", VNumber (-123 # 1))]) /\
  parser rejectingLoader (ArgString (js "123.456"))
  = Normal (VObject [(js "_", VNumber (15432 # 125))]).
Proof. repeat split. Qed.

Example test_default_boolean_null_date :
  parser rejectingLoader (ArgString (js "true"))
  = Normal (VObject [(js "_", VBoolean true)]) /\
  parser rejectingLoader (ArgString (js "false"))
  = Normal (VObject [(js "_", VBoolean false)]) /\
  parser rejectingLoader (ArgString (js "null"))
  = Normal (VObject [(js "_", VNull)]) /\
  parser rejectingLoader (ArgString (js "2021-06-01"))
  = Normal (VObject [(js "_", VDate (js "2021-06-01"))]) /\
  parser rejectingLoader (ArgString (js "2021-6-1"))
  = Normal (VObject [(js "_", VString (js "2021-6-1"))]).
Proof. repeat split. Qed.

(** * The claims *)

(** ** C2, C3, C8, C10: the shape detector *)

(** C2: [parser] never throws: every call returns.  It returns the empty
    mapping for [undefined], for [null] and for a string that is empty
    once trimmed; and for a text of key-value-list shape on which the
    loader throws, the exception is caught and the empty mapping is
    returned. *)
Theorem parser_never_raises :
  forall jsyaml_load : jsstring -> completion JsValue,
    (forall x : Arg, exists o, parser jsyaml_load x = Normal o) /\
    parser jsyaml_load ArgUndefined = Normal emptyObject /\
    parser jsyaml_load ArgNull = Normal emptyObject /\
    (forall s, trim s = [] ->
               parser jsyaml_load (ArgString s) = Normal emptyObject) /\
    (forall s e,
        startsWith (trim s) [DQUOTE] = false ->
        startsWith (trim s) [SQUOTE] = false ->
        In COLON (trim s) ->
        jsyaml_load (js "{" ++ trim s ++ js "}") = Throw e ->
        parser jsyaml_load (ArgString s) = Normal emptyObject).
Proof.
  intros jl. repeat split.
  - intros [| |s]; simpl; eauto.
    destruct (jseq (trim s) []); eauto.
    destruct (_ || _ || _); eauto.
    destruct (jl _); simpl; eauto.
  - apply parser_empty.
  - intros s e Hd Hs Hc He.
    rewrite parser_key_value_list by assumption.
    rewrite He. reflexivity.
Qed.

Lemma parser_never_raises_witness :
  parser rejectingLoader (ArgString (js " ")) = Normal emptyObject /\
  parser rejectingLoader (ArgString (js " a: 'b ")) = Normal emptyObject.
Proof.
  destruct (parser_never_raises rejectingLoader) as [_ [_ [_ [He Ht]]]].
  split.
  - apply (He (js " ")). reflexivity.
  - apply (Ht (js " a: 'b ") (VString (js "YAMLException"))).
    + reflexivity.
    + reflexivity.
    + vm_compute. right. left. reflexivity.
    + reflexivity.
Defined.

(** C3: a trimmed text that is not empty, holds no colon and does not
    start with a quote is parsed to the mapping whose one entry has the
    key "_" and the coerced text as its value. *)
Theorem default_key_without_colon :
  forall (jsyaml_load : jsstring -> completion JsValue) (T : jsstring),
    T <> [] ->
    trim T = T ->
    ~ In COLON T ->
    startsWith T [DQUOTE] = false ->
    startsWith T [SQUOTE] = false ->
    parser jsyaml_load (ArgString T)
    = Normal (VObject [(js "_", _getValue T)]).
Proof.
  intros jl T Hne Ht Hc _ _.
  rewrite parser_default_key; rewrite Ht; auto.
Qed.

Lemma default_key_without_colon_witness :
  parser rejectingLoader (ArgString (js "value3"))
  = Normal (VObject [(js "_", _getValue (js "value3"))]).
Proof.
  apply (default_key_without_colon rejectingLoader (js "value3")).
  - discriminate.
  - reflexivity.
  - vm_compute. intuition discriminate.
  - reflexivity.
  - reflexivity.
Defined.

(** C8: a text whose trimmed form starts with a double or a single quote
    is one default-key value, colon or not, and the loader is not
    consulted; so ['a: b'] gives the one entry "_" with the value
    [a: b]. *)
Theorem quoted_text_is_default_value :
  (forall (jsyaml_load : jsstring -> completion JsValue) (s : jsstring),
      startsWith (trim s) [DQUOTE] = true \/
      startsWith (trim s) [SQUOTE] = true ->
      parser jsyaml_load (ArgString s)
      = Normal (VObject [(js "_", _getValue (trim s))])) /\
  (forall jsyaml_load : jsstring -> completion JsValue,
      parser jsyaml_load (ArgString (js "'a: b'"))
      = Normal (VObject [(js "_", VString (js "a: b"))])).
Proof.
  split.
  - intros jl s H. apply parser_default_key.
    + destruct H as [H|H]; apply (startsWith_char_nonempty _ _ H).
    + tauto.
  - intros jl. reflexivity.
Qed.

Lemma quoted_text_is_default_value_witness :
  parser sampleLoader (ArgString ([DQUOTE] ++ js "a: b" ++ [DQUOTE]))
  = Normal (VObject
      [(js "_", _getValue (trim ([DQUOTE] ++ js "a: b" ++ [DQUOTE])))]).
Proof.
  apply (proj1 quoted_text_is_default_value sampleLoader).
  left. reflexivity.
Defined.

(** C10: [parser] sees its argument only through [trim]: a string and
    its trimmed form have the same result, and a string of white space
    alone gives the empty mapping. *)
Theorem parser_trim_invariant :
  forall (jsyaml_load : jsstring -> completion JsValue) (s : jsstring),
    parser jsyaml_load (ArgString s)
    = parser jsyaml_load (ArgString (trim s)) /\
    (forallb isWhiteSpace s = true ->
     parser jsyaml_load (ArgString s) = Normal emptyObject).
Proof.
  intros jl s. split.
  - unfold parser. rewrite trim_idem. reflexivity.
  - intros H. apply parser_empty, trim_blank, H.
Qed.

Lemma parser_trim_invariant_witness :
  parser sampleLoader (ArgString (js "  a: b "))
  = parser sampleLoader (ArgString (trim (js "  a: b "))) /\
  parser sampleLoader (ArgString [32%N; 9%N; 160%N; 10%N])
  = Normal emptyObject.
Proof.
  split.
  - apply (proj1 (parser_trim_invariant sampleLoader (js "  a: b "))).
  - apply (proj2 (parser_trim_invariant sampleLoader [32%N; 9%N; 160%N; 10%N])).
    reflexivity.
Defined.

(** ** C4, C5, C6, C9: the value coercer *)

(** C4: a token longer than two characters that starts and ends with a
    double quote is coerced to the string obtained from its interior by
    the single pass of the specification: backslash-n, backslash-t and
    backslash-backslash are replaced, nothing else is, and what was
    replaced is not scanned again. *)
Theorem double_quoted_token :
  forall text : jsstring,
    startsWith text [DQUOTE] = true ->
    endsWith text [DQUOTE] = true ->
    (2 < jslength text)%Z ->
    exists inner,
      text = DQUOTE :: inner ++ [DQUOTE] /\
      _getValue text = VString (Spec.unescape inner).
Proof.
  intros text Hs He Hl.
  assert (G : isDoubleQuoted text = true).
  { unfold isDoubleQuoted. rewrite Hs, He.
    apply Z.ltb_lt in Hl. rewrite Hl. reflexivity. }
  destruct (quoted_shape DQUOTE text G) as [inner [_ E]].
  exists inner. split; [exact E|].
  unfold _getValue. rewrite G. rewrite E at 1 2.
  rewrite (substring_inner DQUOTE DQUOTE inner), _unescapeText_spec.
  reflexivity.
Qed.

Lemma double_quoted_token_witness :
  exists inner,
    [DQUOTE] ++ js "a\\n\tb\q" ++ [DQUOTE] = DQUOTE :: inner ++ [DQUOTE] /\
    _getValue ([DQUOTE] ++ js "a\\n\tb\q" ++ [DQUOTE])
    = VString (Spec.unescape inner).
Proof.
  apply (double_quoted_token ([DQUOTE] ++ js "a\\n\tb\q" ++ [DQUOTE])).
  - reflexivity.
  - reflexivity.
  - reflexivity.
Defined.

(** The pass at work: a replaced backslash does not start a new escape,
    and backslash-quote is left as it is. *)
Example unescape_no_rescan :
  Spec.unescape (js "a\\n\tb\q") = js "a\n" ++ [9%N] ++ js "b\q".
Proof. reflexivity. Qed.

Example unescape_backslash_quote :
  _getValue ([DQUOTE] ++ js "a\" ++ [DQUOTE] ++ js "b" ++ [DQUOTE])
  = VString (js "a\" ++ [DQUOTE] ++ js "b").
Proof. reflexivity. Qed.

(** Collapsing doubled quotes touches no other character. *)
Lemma collapseQuotes_others (n : nat) :
  forall s : jsstring,
    (length s <= n)%nat ->
    filter (fun c => negb (N.eqb c SQUOTE)) (Spec.collapseQuotes s)
    = filter (fun c => negb (N.eqb c SQUOTE)) s.
Proof.
  induction n as [|n IH]; intros s Hlen.
  - destruct s; [reflexivity | simpl in Hlen; lia].
  - destruct s as [|c [|d rest]]; [reflexivity | |].
    + cbn [Spec.collapseQuotes]. destruct (N.eqb c SQUOTE); reflexivity.
    + simpl in Hlen. rewrite collapseQuotes_cons2.
      destruct (N.eqb c SQUOTE) eqn:Ec; [destruct (N.eqb d SQUOTE) eqn:Ed|].
      * cbn [filter]. rewrite Ec, Ed, N.eqb_refl. simpl negb. cbv iota.
        apply IH. lia.
      * cbn [filter]. rewrite Ec. simpl negb. cbv iota.
        rewrite IH by (simpl; lia). cbn [filter]. reflexivity.
      * cbn [filter]. rewrite Ec. simpl negb. cbv iota.
        rewrite IH by (simpl; lia). reflexivity.
Qed.

(** C5: a token longer than two characters that starts and ends with a
    single quote does not pass the double-quote rule and is coerced to
    its interior with every two consecutive single quotes made one;
    every other character, a backslash included, is passed on as it
    is. *)
Theorem single_quoted_token :
  forall text : jsstring,
    startsWith text [SQUOTE] = true ->
    endsWith text [SQUOTE] = true ->
    (2 < jslength text)%Z ->
    exists inner,
      text = SQUOTE :: inner ++ [SQUOTE] /\
      isDoubleQuoted text = false /\
      _getValue text = VString (Spec.collapseQuotes inner) /\
      filter (fun c => negb (N.eqb c SQUOTE)) (Spec.collapseQuotes inner)
      = filter (fun c => negb (N.eqb c SQUOTE)) inner.
Proof.
  intros text Hs He Hl.
  assert (G : isSingleQuoted text = true).
  { unfold isSingleQuoted. rewrite Hs, He.
    apply Z.ltb_lt in Hl. rewrite Hl. reflexivity. }
  destruct (quoted_shape SQUOTE text G) as [inner [_ E]].
  assert (D : isDoubleQuoted text = false).
  { rewrite E. reflexivity. }
  exists inner. repeat split; auto.
  - unfold _getValue. rewrite D, G. rewrite E at 1 2.
    rewrite (substring_inner SQUOTE SQUOTE inner), replace_two_quotes_spec.
    reflexivity.
  - apply (collapseQuotes_others (length inner)). lia.
Qed.

Lemma single_quoted_token_witness :
  exists inner,
    js "'a''b\nc'" = SQUOTE :: inner ++ [SQUOTE] /\
    isDoubleQuoted (js "'a''b\nc'") = false /\
    _getValue (js "'a''b\nc'") = VString (Spec.collapseQuotes inner) /\
    filter (fun c => negb (N.eqb c SQUOTE)) (Spec.collapseQuotes inner)
    = filter (fun c => negb (N.eqb c SQUOTE)) inner.
Proof.
  apply (single_quoted_token (js "'a''b\nc'")).
  - reflexivity.
  - reflexivity.
  - reflexivity.
Defined.

Example single_quoted_backslash_inert :
  _getValue (js "'a''b\nc'") = VString (js "a'b\nc").
Proof. reflexivity. Qed.

(** A digit is none of the characters the earlier rules look for. *)
Lemma digit_facts (c : N) :
  isDigit c = true ->
  N.eqb c DQUOTE = false /\ N.eqb c SQUOTE = false /\
  N.eqb c 43 = false /\ N.eqb c 45 = false /\ N.eqb c 46 = false /\
  N.eqb (canonicalize c) 84 = false /\ N.eqb (canonicalize c) 70 = false.
Proof.
  unfold isDigit, canonicalize, DQUOTE, SQUOTE.
  rewrite andb_true_iff, !N.leb_le. intros [H1 H2].
  assert (E : N.leb 97 c = false) by (apply N.leb_gt; lia).
  rewrite E. simpl.
  repeat split; apply N.eqb_neq; lia.
Qed.

(** A text of the date shape meets none of the rules that come before
    the date rule. *)
Lemma date_text_reaches_date_rule (text : jsstring) :
  Spec.isDateText text = true ->
  isDoubleQuoted text = false /\ isSingleQuoted text = false /\
  test reNumber text = false /\ test reBoolean text = false.
Proof.
  unfold Spec.isDateText.
  do 11 (destruct text as [|? text]; try discriminate).
  simpl forallb. rewrite !andb_true_iff, !N.eqb_eq.
  intros [[[[[Y1 [Y2 [Y3 [Y4 _]]]] ->] [M1 [M2 _]]] ->] [D1 [D2 _]]].
  destruct (digit_facts _ Y1) as (A1 & A2 & A3 & A4 & A5 & A6 & A7).
  destruct (digit_facts _ Y2) as (_ & _ & _ & _ & B5 & _).
  destruct (digit_facts _ Y3) as (_ & _ & _ & _ & C5 & _).
  destruct (digit_facts _ Y4) as (_ & _ & _ & _ & E5 & _).
  repeat split.
  - unfold isDoubleQuoted. simpl startsWith. rewrite A1. reflexivity.
  - unfold isSingleQuoted. simpl startsWith. rewrite A2. reflexivity.
  - unfold reNumber. rewrite test_anchored. unfold match_here. simpl.
    rewrite ?A3, ?A4, ?Y1, ?Y2, ?Y3, ?Y4, ?A5, ?B5, ?C5, ?E5. reflexivity.
  - unfold reBoolean. rewrite test_anchored. unfold match_here. simpl.
    change (canonicalize 116) with 84%N.
    change (canonicalize 102) with 70%N.
    rewrite ?A6, ?A7. reflexivity.
Qed.

(** C6: a token is coerced to a [Date] exactly when it is four digits, a
    hyphen, two digits, a hyphen and two digits, and the [Date] is then
    built from the token itself; a token that failed the earlier rules
    and has not this shape is [null] or the token as a string, so
    [2021-6-1] comes back unchanged. *)
Theorem date_token :
  (forall text : jsstring,
      (exists d, _getValue text = VDate d) <-> Spec.isDateText text = true) /\
  (forall text : jsstring,
      Spec.isDateText text = true -> _getValue text = VDate text) /\
  (forall text : jsstring,
      isDoubleQuoted text = false ->
      isSingleQuoted text = false ->
      test reNumber text = false ->
      test reBoolean text = false ->
      Spec.isDateText text = false ->
      _getValue text = if jseq text (js "null") then VNull else VString text) /\
  Spec.isDateText (js "2021-6-1") = false /\
  _getValue (js "2021-6-1") = VString (js "2021-6-1").
Proof.
  assert (D : forall text,
             Spec.isDateText text = true -> _getValue text = VDate text).
  { intros text H.
    destruct (date_text_reaches_date_rule text H) as (A & B & C & E).
    unfold _getValue. rewrite A, B, C, E, reDate_spec, H. reflexivity. }
  repeat split.
  - intros [d H]. unfold _getValue in H.
    destruct (isDoubleQuoted text); [discriminate|].
    destruct (isSingleQuoted text); [discriminate|].
    destruct (test reNumber text); [discriminate|].
    destruct (test reBoolean text); [discriminate|].
    rewrite reDate_spec in H.
    destruct (Spec.isDateText text); [reflexivity|].
    destruct (jseq text (js "null")); discriminate.
  - intros H. exists text. apply D, H.
  - apply D.
  - intros text A B C E F. unfold _getValue.
    rewrite A, B, C, E, reDate_spec, F. reflexivity.
Qed.

Lemma date_token_witness :
  _getValue (js "2021-06-01") = VDate (js "2021-06-01") /\
  _getValue (js "2021-6-1")
  = (if jseq (js "2021-6-1") (js "null") then VNull
     else VString (js "2021-6-1")).
Proof.
  destruct date_token as [_ [D [F _]]]. split.
  - apply (D (js "2021-06-01")). reflexivity.
  - apply (F (js "2021-6-1")); reflexivity.
Defined.

(** C9: the token of two double quotes, and the token of two single
    quotes, passes neither quoted-string rule (its length is not above
    2) nor the number, boolean, date and null tests, and comes back as
    the same two characters, not as the empty string. *)
Theorem two_quotes_token_verbatim :
  forall t : jsstring,
    t = [DQUOTE; DQUOTE] \/ t = [SQUOTE; SQUOTE] ->
    (2 <? jslength t)%Z = false /\
    isDoubleQuoted t = false /\
    isSingleQuoted t = false /\
    test reNumber t = false /\
    test reBoolean t = false /\
    test reDate t = false /\
    jseq t (js "null") = false /\
    _getValue t = VString t /\
    _getValue t <> VString [].
Proof.
  intros t [-> | ->]; repeat split; discriminate.
Qed.

Lemma two_quotes_token_verbatim_witness :
  _getValue [DQUOTE; DQUOTE] = VString [DQUOTE; DQUOTE] /\
  _getValue [SQUOTE; SQUOTE] = VString [SQUOTE; SQUOTE].
Proof.
  split.
  - apply (two_quotes_token_verbatim [DQUOTE; DQUOTE]). left. reflexivity.
  - apply (two_quotes_token_verbatim [SQUOTE; SQUOTE]). right. reflexivity.
Defined.

(** * Further properties of the coercer *)

(** ** The matcher on the quantifiers of the number pattern *)

Lemma run_plus_cons (A : Type) (a : atom) (bol : bool) (c : N)
    (s : jsstring) (k : bool -> jsstring -> option A) :
  run (Plus a) bol (c :: s) k =
  if atom_match a c then
    match run (Plus a) bol s k with
    | Some x => Some x
    | None => k false s
    end
  else None.
Proof. reflexivity. Qed.

(** [a+] succeeds exactly when the subject splits into a run of [a]
    that is not empty and a rest the continuation accepts: the greedy
    choice and the backtracking together try every such split. *)
Lemma run_plus_ok (A : Type) (a : atom) (bol : bool) (s : jsstring)
    (k : bool -> jsstring -> option A) :
  run (Plus a) bol s k <> None <->
  exists ds rest,
    ds <> [] /\ forallb (atom_match a) ds = true /\
    s = ds ++ rest /\ k false rest <> None.
Proof.
  induction s as [|c s IH].
  - simpl. split; [congruence|].
    intros (ds & rest & Hne & _ & E & _).
    destruct ds; [congruence | discriminate].
  - rewrite run_plus_cons. destruct (atom_match a c) eqn:Ec.
    + split.
      * intros H. destruct (run (Plus a) bol s k) eqn:Er.
        -- destruct (proj1 IH) as (ds & rest & Hne & Hall & E & Hk);
             [discriminate|].
           exists (c :: ds), rest. repeat split; auto; try discriminate.
           ++ simpl. rewrite Ec. exact Hall.
           ++ simpl. rewrite E. reflexivity.
        -- exists [c], s. repeat split; auto; try discriminate.
           simpl. rewrite Ec. reflexivity.
      * intros (ds & rest & Hne & Hall & E & Hk).
        destruct ds as [|d ds]; [congruence|].
        simpl in E. inversion E; subst.
        simpl in Hall. rewrite Ec in Hall. simpl in Hall.
        destruct ds as [|d' ds'].
        -- cbn [app] in *.
           destruct (run (Plus a) bol rest k); [congruence | exact Hk].
        -- assert (R : run (Plus a) bol ((d' :: ds') ++ rest) k <> None).
           { apply IH. exists (d' :: ds'), rest.
             repeat split; auto. discriminate. }
           destruct (run (Plus a) bol ((d' :: ds') ++ rest) k); congruence.
    + split; [congruence|].
      intros (ds & rest & Hne & Hall & E & _).
      destruct ds as [|d ds]; [congruence|].
      simpl in E. inversion E; subst.
      simpl in Hall. rewrite Ec in Hall. discriminate.
Qed.

(** ** The number pattern *)

(** The end of the number pattern, [(\.\d+)?$]. *)
Lemma number_tail_ok (bol : bool) (s : jsstring) :
  run (Seq (Opt (Seq (Atom (AChar 46)) (Plus ADigit))) Eol) bol s
      (fun _ rest => Some rest) <> None <->
  (s = [] \/
   exists fp, s = 46%N :: fp /\ fp <> [] /\ forallb isDigit fp = true).
Proof.
  destruct s as [|c s].
  - simpl. split; [auto | congruence].
  - change (run (Seq (Opt (Seq (Atom (AChar 46)) (Plus ADigit))) Eol) bol
              (c :: s) (fun _ rest => Some rest))
      with (match (if N.eqb c 46
                   then run (Plus ADigit) false s
                          (fun b' s' => run Eol b' s' (fun _ rest => Some rest))
                   else None) with
            | Some x => Some x
            | None => None
            end).
    destruct (N.eqb_spec c 46) as [->|Hc].
    + split.
      * intros H.
        destruct (run (Plus ADigit) false s _) eqn:E; [|congruence].
        assert (R : run (Plus ADigit) false s
                      (fun b' s' => run Eol b' s' (fun _ rest => Some rest))
                    <> None) by congruence.
        apply run_plus_ok in R. destruct R as (ds & rest & Hne & Hall & -> & Hk).
        destruct rest; [|simpl in Hk; congruence].
        right. exists ds. rewrite app_nil_r. auto.
      * intros [H | (fp & E & Hne & Hall)]; [discriminate|].
        inversion E; subst.
        assert (R : run (Plus ADigit) false fp
                      (fun b' s' => run Eol b' s' (fun _ rest => Some rest))
                    <> None).
        { apply run_plus_ok. exists fp, []. rewrite app_nil_r.
          repeat split; auto. simpl. congruence. }
        destruct (run (Plus ADigit) false fp _); congruence.
    + split; [congruence|].
      intros [H | (fp & E & _)]; [discriminate|].
      inversion E. contradiction.
Qed.

(** The pattern after its sign, [\d+(\.\d+)?$]. *)
Lemma number_body_ok (bol : bool) (s : jsstring) :
  run (Seq (Plus ADigit)
           (Seq (Opt (Seq (Atom (AChar 46)) (Plus ADigit))) Eol)) bol s
      (fun _ rest => Some rest) <> None <->
  NumberText s /\ (forall c r, s = c :: r -> isDigit c = true).
Proof.
  change (run (Seq (Plus ADigit)
                   (Seq (Opt (Seq (Atom (AChar 46)) (Plus ADigit))) Eol))
              bol s (fun _ rest => Some rest))
    with (run (Plus ADigit) bol s
            (fun b' s' =>
               run (Seq (Opt (Seq (Atom (AChar 46)) (Plus ADigit))) Eol)
                   b' s' (fun _ rest => Some rest))).
  rewrite run_plus_ok. split.
  - intros (ds & rest & Hne & Hall & -> & Hk).
    apply number_tail_ok in Hk. split.
    + exists [], ds, rest. repeat split; auto.
    + intros c r E. destruct ds as [|d ds]; [congruence|].
      simpl in E. inversion E; subst. simpl in Hall.
      apply andb_true_iff in Hall. tauto.
  - intros [(sign & ip & frac & Hs & Hne & Hall & Hf & ->) Hd].
    destruct Hs as [-> | [-> | ->]].
    + exists ip, frac. repeat split; auto. apply number_tail_ok, Hf.
    + specialize (Hd _ _ eq_refl). discriminate.
    + specialize (Hd _ _ eq_refl). discriminate.
Qed.

(** [/^[+-]?\d+(\.\d+)?$/] accepts the number texts and no other. *)
Lemma reNumber_spec (text : jsstring) :
  test reNumber text = true <-> NumberText text.
Proof.
  unfold reNumber. rewrite test_anchored. unfold match_here.
  set (body := Seq (Plus ADigit)
                 (Seq (Opt (Seq (Atom (AChar 46)) (Plus ADigit))) Eol)).
  assert (B : forall b s,
             run body b s (fun _ rest => Some rest) <> None <->
             NumberText s /\ (forall c r, s = c :: r -> isDigit c = true))
    by (intros; apply number_body_ok).
  change (run (Seq (Opt (Atom (ASet [43%N; 45%N]))) body) true text
              (fun _ rest => Some rest))
    with (match run (Atom (ASet [43%N; 45%N])) true text
                  (fun b' s' => run body b' s' (fun _ rest => Some rest)) with
          | Some x => Some x
          | None => run body true text (fun _ rest => Some rest)
          end).
  destruct text as [|c s].
  - cbn [run]. split.
    + intros H.
      destruct (run body true [] _) eqn:E; [|discriminate].
      assert (R : run body true [] (fun _ rest => Some rest) <> None)
        by congruence.
      apply B in R. tauto.
    + intros H.
      assert (R : run body true [] (fun _ rest => Some rest) <> None)
        by (apply B; split; [exact H | discriminate]).
      destruct (run body true [] _); congruence.
  - cbn [run atom_match existsb].
    destruct (N.eqb_spec c 43) as [->|H43];
      [|destruct (N.eqb_spec c 45) as [->|H45]]; cbn [orb].
    + split.
      * intros H. destruct (run body false s _) eqn:E.
        -- assert (R : run body false s (fun _ rest => Some rest) <> None)
             by congruence.
           apply B in R.
           destruct R as [(sign & ip & frac & Hs & Hne & Hall & Hf & ->) Hd].
           destruct Hs as [-> | [-> | ->]];
             try (specialize (Hd _ _ eq_refl); discriminate).
           exists [43%N], ip, frac. repeat split; auto.
        -- destruct (run body true (43%N :: s) _) eqn:E'; [|discriminate].
           assert (R : run body true (43%N :: s) (fun _ rest => Some rest)
                       <> None) by congruence.
           apply B in R. destruct R as [_ Hd].
           specialize (Hd _ _ eq_refl). discriminate.
      * intros (sign & ip & frac & Hs & Hne & Hall & Hf & E).
        destruct Hs as [-> | [-> | ->]].
        -- destruct ip as [|d ip]; [congruence|].
           simpl in E. inversion E; subst. simpl in Hall. discriminate.
        -- simpl in E. inversion E; subst.
           assert (R : run body false (ip ++ frac) (fun _ rest => Some rest)
                       <> None).
           { apply B. split.
             - exists [], ip, frac. repeat split; auto.
             - intros c r E'. destruct ip as [|d ip]; [congruence|].
               simpl in E'. inversion E'; subst. simpl in Hall.
               apply andb_true_iff in Hall. tauto. }
           destruct (run body false (ip ++ frac) _); congruence.
        -- simpl in E. inversion E.
    + split.
      * intros H. destruct (run body false s _) eqn:E.
        -- assert (R : run body false s (fun _ rest => Some rest) <> None)
             by congruence.
           apply B in R.
           destruct R as [(sign & ip & frac & Hs & Hne & Hall & Hf & ->) Hd].
           destruct Hs as [-> | [-> | ->]];
             try (specialize (Hd _ _ eq_refl); discriminate).
           exists [45%N], ip, frac. repeat split; auto.
        -- destruct (run body true (45%N :: s) _) eqn:E'; [|discriminate].
           assert (R : run body true (45%N :: s) (fun _ rest => Some rest)
                       <> None) by congruence.
           apply B in R. destruct R as [_ Hd].
           specialize (Hd _ _ eq_refl). discriminate.
      * intros (sign & ip & frac & Hs & Hne & Hall & Hf & E).
        destruct Hs as [-> | [-> | ->]].
        -- destruct ip as [|d ip]; [congruence|].
           simpl in E. inversion E; subst. simpl in Hall. discriminate.
        -- simpl in E. inversion E.
        -- simpl in E. inversion E; subst.
           assert (R : run body false (ip ++ frac) (fun _ rest => Some rest)
                       <> None).
           { apply B. split.
             - exists [], ip, frac. repeat split; auto.
             - intros c r E'. destruct ip as [|d ip]; [congruence|].
               simpl in E'. inversion E'; subst. simpl in Hall.
               apply andb_true_iff in Hall. tauto. }
           destruct (run body false (ip ++ frac) _); congruence.
    + split.
      * intros H.
        destruct (run body true (c :: s) _) eqn:E; [|discriminate].
        assert (R : run body true (c :: s) (fun _ rest => Some rest) <> None)
          by congruence.
        apply B in R. tauto.
      * intros H.
        assert (R : run body true (c :: s) (fun _ rest => Some rest) <> None).
        { apply B. split; [exact H|].
          intros c' r E. inversion E; subst.
          destruct H as (sign & ip & frac & Hs & Hne & Hall & Hf & E').
          destruct Hs as [-> | [-> | ->]].
          - destruct ip as [|d ip]; [congruence|].
            simpl in E'. inversion E'; subst. simpl in Hall.
            apply andb_true_iff in Hall. tauto.
          - simpl in E'. inversion E'. congruence.
          - simpl in E'. inversion E'. congruence. }
        destruct (run body true (c :: s) _); congruence.
Qed.

(** ** The boolean pattern *)

(** Under the [i] flag a lower-case letter of the pattern accepts the
    characters that [toLowerCase] sends to it. *)
Lemma fold_letter (c x : N) :
  (97 <= x <= 122)%N ->
  N.eqb (canonicalize c) (canonicalize x) = N.eqb (lowerChar c) x.
Proof.
  intros Hx. unfold canonicalize, lowerChar.
  replace (N.leb 97 x && N.leb x 122) with true
    by (symmetry; apply andb_true_iff; split; apply N.leb_le; lia).
  destruct (N.leb_spec 97 c), (N.leb_spec c 122), (N.leb_spec 65 c),
    (N.leb_spec c 90); simpl;
    match goal with
    | |- N.eqb ?a ?b = N.eqb ?a' ?b' =>
        destruct (N.eqb_spec a b), (N.eqb_spec a' b'); auto; lia
    end.
Qed.

(** [/^(true|false)$/i] accepts the texts that [toLowerCase] sends to
    [true] or to [false]. *)
Lemma reBoolean_spec (text : jsstring) :
  test reBoolean text =
  jseq (toLowerCase text) (js "true") || jseq (toLowerCase text) (js "false").
Proof.
  unfold reBoolean. rewrite test_anchored. unfold match_here.
  do 6 (destruct text as [|? text]; simpl;
        rewrite ?fold_letter by lia;
        repeat match goal with
               | |- context [N.eqb (lowerChar ?c) ?k] =>
                   destruct (N.eqb (lowerChar c) k); simpl
               end;
        try reflexivity).
Qed.

(** ** The first character of a token decides which rule may apply *)

Lemma quoted_first (q : N) (text : jsstring) :
  startsWith text [q] && (2 <? jslength text)%Z && endsWith text [q] = true ->
  exists r, text = q :: r.
Proof. intros H. destruct (quoted_shape q text H) as (inner & _ & ->). eauto. Qed.

Lemma NumberText_first (text : jsstring) :
  NumberText text ->
  exists c r, text = c :: r /\ (c = 43%N \/ c = 45%N \/ isDigit c = true).
Proof.
  intros (sign & ip & frac & Hs & Hne & Hall & _ & ->).
  destruct Hs as [-> | [-> | ->]].
  - destruct ip as [|d ip]; [congruence|]. simpl in *.
    apply andb_true_iff in Hall. exists d, (ip ++ frac). tauto.
  - exists 43%N, (ip ++ frac). auto.
  - exists 45%N, (ip ++ frac). auto.
Qed.

Lemma lowerChar_inv (c k : N) :
  (97 <= k <= 122)%N -> lowerChar c = k -> c = k \/ c = (k - 32)%N.
Proof.
  unfold lowerChar. intros Hk.
  destruct (N.leb_spec 65 c), (N.leb_spec c 90); simpl; lia.
Qed.

Lemma boolean_first (text : jsstring) :
  test reBoolean text = true ->
  exists c r, text = c :: r /\
              (c = 116%N \/ c = 84%N \/ c = 102%N \/ c = 70%N).
Proof.
  rewrite reBoolean_spec, orb_true_iff, !jseq_true_iff.
  destruct text as [|c r]; [intros [H|H]; discriminate|].
  intros H. exists c, r. split; [reflexivity|].
  destruct H as [H|H]; cbn [toLowerCase map] in H.
  - change (js "true") with [116%N; 114%N; 117%N; 101%N] in H.
    injection H as E _. apply lowerChar_inv in E; lia.
  - change (js "false") with [102%N; 97%N; 108%N; 115%N; 101%N] in H.
    injection H as E _. apply lowerChar_inv in E; lia.
Qed.

Lemma digit_range (c : N) : isDigit c = true -> (48 <= c <= 57)%N.
Proof.
  unfold isDigit. rewrite andb_true_iff, !N.leb_le. tauto.
Qed.

(** ** The quoted rules on a token given by its interior *)

Lemma getValue_double_quoted (inner : jsstring) :
  inner <> [] ->
  _getValue (DQUOTE :: inner ++ [DQUOTE]) = VString (Spec.unescape inner).
Proof.
  intros Hne. unfold _getValue, isDoubleQuoted.
  rewrite (quoted_guard DQUOTE inner Hne).
  rewrite (substring_inner DQUOTE DQUOTE inner), _unescapeText_spec.
  reflexivity.
Qed.

Lemma getValue_single_quoted (inner : jsstring) :
  inner <> [] ->
  _getValue (SQUOTE :: inner ++ [SQUOTE])
  = VString (Spec.collapseQuotes inner).
Proof.
  intros Hne. unfold _getValue, isSingleQuoted.
  replace (isDoubleQuoted (SQUOTE :: inner ++ [SQUOTE])) with false
    by reflexivity.
  rewrite (quoted_guard SQUOTE inner Hne).
  rewrite (substring_inner SQUOTE SQUOTE inner), replace_two_quotes_spec.
  reflexivity.
Qed.

(** A text between two characters that are not white space is its own
    trimmed form. *)
Lemma trim_fixed (a b : N) (m : jsstring) :
  isWhiteSpace a = false -> isWhiteSpace b = false ->
  trim (a :: m ++ [b]) = a :: m ++ [b].
Proof.
  intros Ha Hb.
  assert (S : trimStart (a :: m ++ [b]) = a :: m ++ [b])
    by (cbn [trimStart]; rewrite Ha; reflexivity).
  assert (E : rev (a :: m ++ [b]) = b :: rev (a :: m))
    by (change (a :: m ++ [b]) with ((a :: m) ++ [b]); apply rev_unit).
  assert (T : trimStart (b :: rev (a :: m)) = b :: rev (a :: m))
    by (cbn [trimStart]; rewrite Hb; reflexivity).
  unfold trim, trimEnd. rewrite S, E, T, <- E. apply rev_involutive.
Qed.

(** ** X1..X4: the unquoted rules of [_getValue] *)

Lemma NumberText_not_quoted (text : jsstring) :
  NumberText text ->
  isDoubleQuoted text = false /\ isSingleQuoted text = false.
Proof.
  intros H. destruct (NumberText_first text H) as (c & r & -> & Hc).
  unfold isDoubleQuoted, isSingleQuoted. cbn [startsWith].
  assert (E : N.eqb c DQUOTE = false /\ N.eqb c SQUOTE = false).
  { destruct Hc as [-> | [-> | Hd]]; [split; reflexivity ..|].
    destruct (digit_facts c Hd) as (A & B & _). auto. }
  destruct E as [-> ->]. split; reflexivity.
Qed.

(** X1: [_getValue] gives a number exactly for the texts made of an
    optional sign, digits, and possibly a point followed by digits; the
    number is then [Number] of the whole text.  So [1.], [.5] and [1e3]
    are not numbers. *)
Theorem number_token :
  forall text : jsstring,
    ((exists q, _getValue text = VNumber q) <-> NumberText text) /\
    (NumberText text -> _getValue text = VNumber (Number text)).
Proof.
  intros text.
  assert (D : NumberText text -> _getValue text = VNumber (Number text)).
  { intros H. destruct (NumberText_not_quoted text H) as [A B].
    apply reNumber_spec in H. unfold _getValue. rewrite A, B, H.
    reflexivity. }
  split; [split|exact D].
  - intros [q H]. unfold _getValue in H.
    destruct (isDoubleQuoted text); [discriminate|].
    destruct (isSingleQuoted text); [discriminate|].
    destruct (test reNumber text) eqn:E; [apply reNumber_spec, E|].
    destruct (test reBoolean text); [discriminate|].
    destruct (test reDate text); [discriminate|].
    destruct (jseq text (js "null")); discriminate.
  - intros H. eexists. apply D, H.
Qed.

Lemma number_token_witness :
  _getValue (js "-12.50") = VNumber (Number (js "-12.50")) /\
  ~ (exists q, _getValue (js "1.") = VNumber q).
Proof.
  split.
  - apply (proj2 (number_token (js "-12.50"))).
    exists [45%N], (js "12"), (js ".50").
    repeat split; auto; try discriminate.
    right. exists (js "50"). repeat split; auto. discriminate.
  - intros H. apply (proj1 (proj1 (number_token (js "1."))) ) in H.
    apply reNumber_spec in H. discriminate.
Defined.

Lemma boolean_text_not_earlier (text : jsstring) :
  test reBoolean text = true ->
  isDoubleQuoted text = false /\ isSingleQuoted text = false /\
  test reNumber text = false.
Proof.
  intros H. destruct (boolean_first text H) as (c & r & -> & Hc).
  repeat split.
  - unfold isDoubleQuoted. cbn [startsWith].
    replace (N.eqb c DQUOTE) with false; [reflexivity|].
    symmetry. apply N.eqb_neq. unfold DQUOTE. lia.
  - unfold isSingleQuoted. cbn [startsWith].
    replace (N.eqb c SQUOTE) with false; [reflexivity|].
    symmetry. apply N.eqb_neq. unfold SQUOTE. lia.
  - destruct (test reNumber (c :: r)) eqn:E; [|reflexivity].
    apply reNumber_spec, NumberText_first in E.
    destruct E as (c' & r' & E & Hc'). inversion E; subst.
    destruct Hc' as [-> | [-> | Hd]]; try lia.
    apply digit_range in Hd. lia.
Qed.

(** X2: [_getValue] gives [true] exactly for the texts that
    [toLowerCase] sends to [true], and [false] exactly for those it
    sends to [false]: the spelling is free in case and nothing may
    surround the word. *)
Theorem boolean_token :
  forall text : jsstring,
    (_getValue text = VBoolean true <-> toLowerCase text = js "true") /\
    (_getValue text = VBoolean false <-> toLowerCase text = js "false").
Proof.
  intros text.
  assert (D : test reBoolean text = true ->
              _getValue text = VBoolean (jseq (toLowerCase text) (js "true"))).
  { intros H. destruct (boolean_text_not_earlier text H) as (A & B & C).
    unfold _getValue. rewrite A, B, C, H. reflexivity. }
  assert (I : forall b, _getValue text = VBoolean b ->
              test reBoolean text = true /\
              jseq (toLowerCase text) (js "true") = b).
  { intros b H. unfold _getValue in H.
    destruct (isDoubleQuoted text); [discriminate|].
    destruct (isSingleQuoted text); [discriminate|].
    destruct (test reNumber text); [discriminate|].
    destruct (test reBoolean text).
    - inversion H. auto.
    - destruct (test reDate text); [discriminate|].
      destruct (jseq text (js "null")); discriminate. }
  split; split.
  - intros H. apply I in H. apply jseq_true_iff, H.
  - intros H. rewrite D.
    + apply jseq_true_iff in H. rewrite H. reflexivity.
    + rewrite reBoolean_spec. apply jseq_true_iff in H. rewrite H.
      reflexivity.
  - intros H. apply I in H. destruct H as [T F].
    rewrite reBoolean_spec, F in T. apply jseq_true_iff, T.
  - intros H. rewrite D.
    + rewrite H. reflexivity.
    + rewrite reBoolean_spec. apply jseq_true_iff in H. rewrite H.
      apply orb_true_r.
Qed.

Lemma boolean_token_witness :
  _getValue (js "TrUe") = VBoolean true /\
  _getValue (js "FALSE") = VBoolean false.
Proof.
  split.
  - apply (proj1 (boolean_token (js "TrUe"))). reflexivity.
  - apply (proj2 (boolean_token (js "FALSE"))). reflexivity.
Defined.

(** X3: a coerced value is a string, a number, a boolean, a date or
    [null], never [undefined], an array or an object; and it is [null]
    for the text [null] alone, in this spelling. *)
Theorem coerced_value_kinds :
  forall text : jsstring,
    match _getValue text with
    | VString _ | VNumber _ | VBoolean _ | VDate _ | VNull => True
    | VUndefined | VArray _ | VObject _ => False
    end /\
    (_getValue text = VNull <-> text = js "null").
Proof.
  intros text. split; [|split].
  - unfold _getValue.
    destruct (isDoubleQuoted text); [exact I|].
    destruct (isSingleQuoted text); [exact I|].
    destruct (test reNumber text); [exact I|].
    destruct (test reBoolean text); [exact I|].
    destruct (test reDate text); [exact I|].
    destruct (jseq text (js "null")); exact I.
  - unfold _getValue.
    destruct (isDoubleQuoted text); [discriminate|].
    destruct (isSingleQuoted text); [discriminate|].
    destruct (test reNumber text); [discriminate|].
    destruct (test reBoolean text); [discriminate|].
    destruct (test reDate text); [discriminate|].
    destruct (jseq text (js "null")) eqn:E; [|discriminate].
    intros _. apply jseq_true_iff, E.
  - intros ->. reflexivity.
Qed.

Lemma coerced_value_kinds_witness :
  _getValue (js "null") = VNull /\ _getValue (js "Null") <> VNull.
Proof.
  split.
  - apply (proj2 (coerced_value_kinds (js "null"))). reflexivity.
  - intros H. apply (proj2 (coerced_value_kinds (js "Null"))) in H.
    discriminate.
Defined.

(** X4: no text meets two of the six guards of [_getValue]: the order
    in which the rules are tried changes no result. *)
Theorem guards_exclusive :
  forall text : jsstring,
    (length (filter (fun b : bool => b)
               [isDoubleQuoted text; isSingleQuoted text;
                test reNumber text; test reBoolean text;
                test reDate text; jseq text (js "null")]) <= 1)%nat.
Proof.
  intros text.
  destruct (jseq text (js "null")) eqn:En.
  { apply jseq_true_iff in En. subst. vm_compute. lia. }
  destruct (test reDate text) eqn:Ed.
  { rewrite reDate_spec in Ed.
    destruct (date_text_reaches_date_rule text Ed) as (-> & -> & -> & ->).
    simpl. lia. }
  destruct (isDoubleQuoted text) eqn:A, (isSingleQuoted text) eqn:B,
    (test reNumber text) eqn:C, (test reBoolean text) eqn:D;
    simpl; try lia; exfalso;
    try (apply quoted_first in A; destruct A as (ra & Ea));
    try (apply quoted_first in B; destruct B as (rb & Eb));
    try (apply reNumber_spec, NumberText_first in C;
         destruct C as (cc & rc & Ec & Hc));
    try (apply boolean_first in D; destruct D as (cd & rd & Ed' & Hd));
    subst;
    repeat match goal with
           | H : _ :: _ = _ :: _ |- _ => inversion H; clear H; subst
           end;
    unfold DQUOTE, SQUOTE in *;
    try match goal with
        | H : _ \/ _ \/ isDigit _ = true |- _ =>
            destruct H as [H | [H | H]];
            [| | apply digit_range in H]
        end;
    try lia; try discriminate.
Qed.

(** ** X5, X6: every string can be written as a quoted token *)

Lemma unescape_doubled (t : jsstring) :
  Spec.unescape
    (flat_map (fun c => if N.eqb c BACKSLASH
                        then [BACKSLASH; BACKSLASH] else [c]) t) = t.
Proof.
  induction t as [|c t IH]; [reflexivity|].
  cbn [flat_map]. destruct (N.eqb_spec c BACKSLASH) as [->|Hc].
  - cbn [app]. rewrite unescape_cons2. cbn. rewrite IH. reflexivity.
  - cbn [app Spec.unescape]. apply N.eqb_neq in Hc. rewrite Hc, IH.
    reflexivity.
Qed.

Lemma collapse_doubled (t : jsstring) :
  Spec.collapseQuotes
    (flat_map (fun c => if N.eqb c SQUOTE then [SQUOTE; SQUOTE] else [c]) t)
  = t.
Proof.
  induction t as [|c t IH]; [reflexivity|].
  cbn [flat_map]. destruct (N.eqb_spec c SQUOTE) as [->|Hc].
  - cbn [app]. rewrite collapseQuotes_cons2. cbn. rewrite IH. reflexivity.
  - cbn [app Spec.collapseQuotes]. apply N.eqb_neq in Hc. rewrite Hc, IH.
    reflexivity.
Qed.

Lemma flat_map_nonempty (f : N -> jsstring) (t : jsstring) :
  (forall c, f c <> []) -> t <> [] -> flat_map f t <> [].
Proof.
  intros Hf Hne. destruct t as [|c t]; [congruence|].
  cbn [flat_map]. specialize (Hf c). destruct (f c); [congruence|discriminate].
Qed.

(** X5: a string that is not empty is read back from the token made of
    it by writing every backslash twice and putting double quotes
    around, by [_getValue] and by [parser] under the key "_", whatever
    the string looks like. *)
Theorem double_quoted_round_trip :
  forall (jsyaml_load : jsstring -> completion JsValue) (t : jsstring),
    t <> [] ->
    let token :=
      DQUOTE :: flat_map (fun c => if N.eqb c BACKSLASH
                                   then [BACKSLASH; BACKSLASH] else [c]) t
             ++ [DQUOTE] in
    _getValue token = VString t /\
    parser jsyaml_load (ArgString token)
    = Normal (VObject [(js "_", VString t)]).
Proof.
  intros jl t Hne token.
  assert (G : _getValue token = VString t).
  { unfold token. rewrite getValue_double_quoted, unescape_doubled; auto.
    apply flat_map_nonempty; auto.
    intros c. destruct (N.eqb c BACKSLASH); discriminate. }
  split; [exact G|].
  assert (T : trim token = token) by (apply trim_fixed; reflexivity).
  rewrite parser_default_key; rewrite T.
  - rewrite G. reflexivity.
  - discriminate.
  - left. reflexivity.
Qed.

Lemma double_quoted_round_trip_witness :
  parser rejectingLoader
    (ArgString (DQUOTE :: js "C:\\dir: 12" ++ [DQUOTE]))
  = Normal (VObject [(js "_", VString (js "C:\dir: 12"))]).
Proof.
  apply (double_quoted_round_trip rejectingLoader (js "C:\dir: 12")).
  discriminate.
Defined.

(** X6: a string that is not empty is read back from the token made of
    it by writing every single quote twice and putting single quotes
    around. *)
Theorem single_quoted_round_trip :
  forall (jsyaml_load : jsstring -> completion JsValue) (t : jsstring),
    t <> [] ->
    let token :=
      SQUOTE :: flat_map (fun c => if N.eqb c SQUOTE
                                   then [SQUOTE; SQUOTE] else [c]) t
             ++ [SQUOTE] in
    _getValue token = VString t /\
    parser jsyaml_load (ArgString token)
    = Normal (VObject [(js "_", VString t)]).
Proof.
  intros jl t Hne token.
  assert (G : _getValue token = VString t).
  { unfold token. rewrite getValue_single_quoted, collapse_doubled; auto.
    apply flat_map_nonempty; auto.
    intros c. destruct (N.eqb c SQUOTE); discriminate. }
  split; [exact G|].
  assert (T : trim token = token) by (apply trim_fixed; reflexivity).
  rewrite parser_default_key; rewrite T.
  - rewrite G. reflexivity.
  - discriminate.
  - right. left. reflexivity.
Qed.

Lemma single_quoted_round_trip_witness :
  parser rejectingLoader (ArgString (js "'it''s: true'"))
  = Normal (VObject [(js "_", VString (js "it's: true"))]).
Proof.
  apply (single_quoted_round_trip rejectingLoader (js "it's: true")).
  discriminate.
Defined.

(** ** X7, X8: what the two replacements keep *)

Lemma unescape_length (n : nat) :
  forall s : jsstring,
    (length s <= n)%nat ->
    (length (Spec.unescape s) <= length s <= 2 * length (Spec.unescape s))%nat.
Proof.
  induction n as [|n IH]; intros s Hlen.
  - destruct s; [simpl; lia | simpl in Hlen; lia].
  - destruct s as [|c [|d rest]].
    + simpl. lia.
    + cbn [Spec.unescape]. destruct (N.eqb c BACKSLASH); simpl; lia.
    + simpl in Hlen. rewrite unescape_cons2.
      assert (R := IH rest ltac:(lia)).
      assert (R' := IH (d :: rest) ltac:(simpl; lia)).
      cbn [length] in *.
      destruct (N.eqb c BACKSLASH); [|cbn [length]; lia].
      destruct (N.eqb d 110); [cbn [length]; lia|].
      destruct (N.eqb d 116); [cbn [length]; lia|].
      destruct (N.eqb d BACKSLASH); cbn [length]; lia.
Qed.

Lemma unescape_plain (s : jsstring) :
  ~ In BACKSLASH s -> Spec.unescape s = s.
Proof.
  induction s as [|c s IH]; [reflexivity|].
  intros H. cbn [Spec.unescape].
  destruct (N.eqb_spec c BACKSLASH) as [->|Hc].
  - exfalso. apply H. left. reflexivity.
  - rewrite IH; [reflexivity|]. intros Hin. apply H. right. exact Hin.
Qed.

(** X7: [_unescapeText] never makes a text longer and at most halves
    it, so it keeps a text that is not empty from becoming empty; a
    text without a backslash comes back as it is. *)
Theorem unescapeText_bounds :
  forall s : jsstring,
    (length (_unescapeText s) <= length s <= 2 * length (_unescapeText s))%nat
    /\ (~ In BACKSLASH s -> _unescapeText s = s).
Proof.
  intros s. rewrite _unescapeText_spec. split.
  - apply (unescape_length (length s)). lia.
  - apply unescape_plain.
Qed.

Lemma unescapeText_bounds_witness :
  _unescapeText (js "a: b, c") = js "a: b, c".
Proof.
  apply (proj2 (unescapeText_bounds (js "a: b, c"))).
  vm_compute. intuition discriminate.
Defined.

Lemma collapse_length (n : nat) :
  forall s : jsstring,
    (length s <= n)%nat ->
    (length (Spec.collapseQuotes s) <= length s
     <= 2 * length (Spec.collapseQuotes s))%nat.
Proof.
  induction n as [|n IH]; intros s Hlen.
  - destruct s; [simpl; lia | simpl in Hlen; lia].
  - destruct s as [|c [|d rest]].
    + simpl. lia.
    + cbn [Spec.collapseQuotes]. destruct (N.eqb c SQUOTE); simpl; lia.
    + simpl in Hlen. rewrite collapseQuotes_cons2.
      assert (R := IH rest ltac:(lia)).
      assert (R' := IH (d :: rest) ltac:(simpl; lia)).
      cbn [length] in *.
      destruct (N.eqb c SQUOTE); [|cbn [length]; lia].
      destruct (N.eqb d SQUOTE); cbn [length]; lia.
Qed.

Lemma collapse_plain (s : jsstring) :
  ~ In SQUOTE s -> Spec.collapseQuotes s = s.
Proof.
  induction s as [|c s IH]; [reflexivity|].
  intros H. cbn [Spec.collapseQuotes].
  destruct (N.eqb_spec c SQUOTE) as [->|Hc].
  - exfalso. apply H. left. reflexivity.
  - rewrite IH; [reflexivity|]. intros Hin. apply H. right. exact Hin.
Qed.

(** X8: the replacement of doubled single quotes never makes a text
    longer and at most halves it; a text without a single quote comes
    back as it is. *)
Theorem replace_two_quotes_bounds :
  forall s : jsstring,
    let out := replace s reTwoQuotes (fun _ => [SQUOTE]) in
    (length out <= length s <= 2 * length out)%nat /\
    (~ In SQUOTE s -> out = s).
Proof.
  intros s out. unfold out. rewrite replace_two_quotes_spec. split.
  - apply (collapse_length (length s)). lia.
  - apply collapse_plain.
Qed.

Lemma replace_two_quotes_bounds_witness :
  replace (js "a\nb") reTwoQuotes (fun _ => [SQUOTE]) = js "a\nb".
Proof.
  apply (proj2 (replace_two_quotes_bounds (js "a\nb"))).
  vm_compute. intuition discriminate.
Defined.

(** ** X9, X10: the empty string and the bare words *)

Lemma getValue_fallback (text : jsstring) :
  isDoubleQuoted text = false ->
  isSingleQuoted text = false ->
  forall s, _getValue text = VString s -> s = text.
Proof.
  intros A B s H. unfold _getValue in H. rewrite A, B in H.
  destruct (test reNumber text); [discriminate|].
  destruct (test reBoolean text); [discriminate|].
  destruct (test reDate text); [discriminate|].
  destruct (jseq text (js "null")); [discriminate|].
  inversion H. reflexivity.
Qed.

(** X9: [_getValue] gives the empty string for the empty text alone,
    and [parser] never hands it the empty text: in the default-key
    shape the value under "_" is never the empty string. *)
Theorem default_value_never_empty :
  (forall text : jsstring, _getValue text = VString [] <-> text = []) /\
  (forall (jsyaml_load : jsstring -> completion JsValue) (s : jsstring),
      startsWith (trim s) [DQUOTE] = true \/
      startsWith (trim s) [SQUOTE] = true \/
      ~ In COLON (trim s) ->
      parser jsyaml_load (ArgString s)
      <> Normal (VObject [(js "_", VString [])])).
Proof.
  assert (E : forall text, _getValue text = VString [] -> text = []).
  { intros text H.
    destruct (isDoubleQuoted text) eqn:A.
    { destruct (quoted_shape DQUOTE text A) as (inner & Hne & ->).
      rewrite getValue_double_quoted in H by exact Hne. inversion H as [H'].
      assert (L := unescape_length (length inner) inner (le_n _)).
      rewrite H' in L. destruct inner; [congruence | simpl in L; lia]. }
    destruct (isSingleQuoted text) eqn:B.
    { destruct (quoted_shape SQUOTE text B) as (inner & Hne & ->).
      rewrite getValue_single_quoted in H by exact Hne. inversion H as [H'].
      assert (L := collapse_length (length inner) inner (le_n _)).
      rewrite H' in L. destruct inner; [congruence | simpl in L; lia]. }
    symmetry. apply (getValue_fallback text A B [] H). }
  split.
  - intros text. split; [apply E | intros ->; reflexivity].
  - intros jl s Hs H.
    destruct (jseq (trim s) []) eqn:Et.
    + apply jseq_nil in Et. rewrite parser_empty in H by exact Et.
      discriminate.
    + assert (Hne : trim s <> []).
      { intros C. apply jseq_nil in C. congruence. }
      rewrite (parser_default_key jl s Hne Hs) in H.
      inversion H as [H']. apply E in H'. contradiction.
Qed.

Lemma default_value_never_empty_witness :
  parser rejectingLoader (ArgString [DQUOTE; DQUOTE])
  <> Normal (VObject [(js "_", VString [])]).
Proof.
  apply (proj2 default_value_never_empty rejectingLoader [DQUOTE; DQUOTE]).
  left. reflexivity.
Defined.

Lemma date_text_first (c : N) (r : jsstring) :
  isDigit c = false -> Spec.isDateText (c :: r) = false.
Proof.
  intros Hd. unfold Spec.isDateText.
  do 9 (destruct r as [|? r]; try reflexivity).
  destruct r; [|reflexivity]. cbn [forallb]. rewrite Hd. reflexivity.
Qed.

(** X10: a text that starts with none of the two quotes, a sign, a
    digit, or the letters t and f in either case, and is not [null],
    comes back as a string, unchanged. *)
Theorem bare_word_token :
  forall (c : N) (r : jsstring),
    ~ In c [DQUOTE; SQUOTE; 43; 45; 116; 84; 102; 70]%N ->
    isDigit c = false ->
    c :: r <> js "null" ->
    _getValue (c :: r) = VString (c :: r).
Proof.
  intros c r Hc Hd Hn.
  assert (A : isDoubleQuoted (c :: r) = false).
  { destruct (isDoubleQuoted (c :: r)) eqn:A; [|reflexivity].
    apply quoted_first in A. destruct A as (r' & E). inversion E; subst.
    exfalso. apply Hc. simpl. auto. }
  assert (B : isSingleQuoted (c :: r) = false).
  { destruct (isSingleQuoted (c :: r)) eqn:B; [|reflexivity].
    apply quoted_first in B. destruct B as (r' & E). inversion E; subst.
    exfalso. apply Hc. simpl. auto. }
  assert (C : test reNumber (c :: r) = false).
  { destruct (test reNumber (c :: r)) eqn:C; [|reflexivity].
    apply reNumber_spec, NumberText_first in C.
    destruct C as (c' & r' & E & H). inversion E; subst.
    destruct H as [-> | [-> | H]]; [| |congruence];
      exfalso; apply Hc; simpl; auto. }
  assert (D : test reBoolean (c :: r) = false).
  { destruct (test reBoolean (c :: r)) eqn:D; [|reflexivity].
    apply boolean_first in D.
    destruct D as (c' & r' & E & H). inversion E; subst.
    exfalso. apply Hc. unfold DQUOTE, SQUOTE. simpl. lia. }
  assert (F : test reDate (c :: r) = false).
  { rewrite reDate_spec. apply date_text_first, Hd. }
  assert (G : jseq (c :: r) (js "null") = false).
  { destruct (jseq (c :: r) (js "null")) eqn:G; [|reflexivity].
    apply jseq_true_iff in G. contradiction. }
  unfold _getValue. rewrite A, B, C, D, F, G. reflexivity.
Qed.

Lemma bare_word_token_witness :
  _getValue (js "value3") = VString (js "value3").
Proof.
  apply (bare_word_token 118%N (js "alue3")).
  - vm_compute. intuition discriminate.
  - reflexivity.
  - discriminate.
Defined.

(** ** X11: a bare number, with white space around *)

Lemma trimStart_padding (l t : jsstring) :
  forallb isWhiteSpace l = true -> trimStart (l ++ t) = trimStart t.
Proof.
  induction l as [|c l IH]; [reflexivity|].
  cbn [forallb app trimStart]. intros [-> H]%andb_true_iff. auto.
Qed.

Lemma trimStart_head (c : N) (t : jsstring) :
  isWhiteSpace c = false -> trimStart (c :: t) = c :: t.
Proof. intros H. cbn [trimStart]. rewrite H. reflexivity. Qed.

(** White space around a text that holds none is trimmed away and
    nothing else is. *)
Lemma trim_padded (l t r : jsstring) :
  forallb isWhiteSpace l = true ->
  forallb isWhiteSpace r = true ->
  (forall c, In c t -> isWhiteSpace c = false) ->
  trim (l ++ t ++ r) = t.
Proof.
  intros Hl Hr Ht. unfold trim. rewrite trimStart_padding by exact Hl.
  destruct t as [|a t].
  - cbn [app]. rewrite trimStart_blank by exact Hr. reflexivity.
  - cbn [app]. rewrite trimStart_head by (apply Ht; left; reflexivity).
    unfold trimEnd.
    change (a :: t ++ r) with ((a :: t) ++ r).
    rewrite rev_app_distr, trimStart_padding
      by (rewrite forallb_forall in *; intros x Hx; apply Hr, in_rev, Hx).
    destruct (rev (a :: t)) as [|b u] eqn:E.
    + apply (f_equal (@rev N)) in E. rewrite rev_involutive in E.
      discriminate.
    + rewrite trimStart_head, <- E, rev_involutive; [reflexivity|].
      apply Ht, in_rev. rewrite E. left. reflexivity.
Qed.

Lemma NumberText_chars (text : jsstring) :
  NumberText text ->
  forall c, In c text ->
            c = 43%N \/ c = 45%N \/ c = 46%N \/ isDigit c = true.
Proof.
  intros (sign & ip & frac & Hs & _ & Hall & Hf & ->) c Hin.
  rewrite forallb_forall in Hall.
  apply in_app_or in Hin. destruct Hin as [Hin | Hin].
  - destruct Hs as [-> | [-> | ->]]; simpl in Hin; intuition.
  - apply in_app_or in Hin. destruct Hin as [Hin | Hin]; [auto|].
    destruct Hf as [-> | (fp & -> & _ & Hall')]; [destruct Hin|].
    rewrite forallb_forall in Hall'.
    destruct Hin as [<- | Hin]; auto.
Qed.

(** X11: a number text, with any white space before and after it, is
    parsed to the one entry "_" with its number, and the loader is not
    consulted. *)
Theorem bare_number_parsed :
  forall (jsyaml_load : jsstring -> completion JsValue)
         (l text r : jsstring),
    forallb isWhiteSpace l = true ->
    forallb isWhiteSpace r = true ->
    NumberText text ->
    parser jsyaml_load (ArgString (l ++ text ++ r))
    = Normal (VObject [(js "_", VNumber (Number text))]).
Proof.
  intros jl l text r Hl Hr Hn.
  assert (Hc := NumberText_chars text Hn).
  assert (T : trim (l ++ text ++ r) = text).
  { apply trim_padded; auto. intros c Hin.
    destruct (Hc c Hin) as [-> | [-> | [-> | Hd]]]; try reflexivity.
    apply digit_range in Hd. unfold isWhiteSpace.
    apply orb_false_iff. split.
    - cbn [existsb]. rewrite !orb_false_iff.
      repeat split; try reflexivity; apply N.eqb_neq; lia.
    - apply andb_false_iff. left. apply N.leb_gt. lia. }
  rewrite parser_default_key; rewrite T.
  - assert (G : test reNumber text = true) by (apply reNumber_spec, Hn).
    destruct (NumberText_not_quoted text Hn) as [A B].
    unfold _getValue. rewrite A, B, G. reflexivity.
  - destruct (NumberText_first text Hn) as (c & r' & -> & _). discriminate.
  - right. right. intros Hin.
    destruct (Hc _ Hin) as [H | [H | [H | H]]]; try discriminate.
Qed.

Lemma bare_number_parsed_witness :
  parser rejectingLoader (ArgString (js "  " ++ js "+7.25" ++ [9%N; 10%N]))
  = Normal (VObject [(js "_", VNumber (Number (js "+7.25")))]).
Proof.
  apply (bare_number_parsed rejectingLoader (js "  ") (js "+7.25")
           [9%N; 10%N]).
  - reflexivity.
  - reflexivity.
  - exists [43%N], (js "7"), (js ".25").
    repeat split; auto; try discriminate.
    right. exists (js "25"). repeat split; auto. discriminate.
Defined.
